(** * Plugin hot-reload: a shallow embedding of [src/plugins/reloader.ts]

    The file embeds the two reload entry points of the plugin subsystem,
    [reloadOpenClawPlugins] (module-cache purge by the previous registry's
    source files, then a forced fresh load) and [reloadPlugins] (the
    orchestrator returning a [ReloadResult]), together with the module cache
    buster [clearPluginModuleCache].

    The modules the reloader imports ([loader.js], [runtime.js],
    [discovery.js], [commands.js], [hook-runner-global.js]) are collaborators:
    every call to them is reified as a [Call] and served by a [Host].  The
    theorems about the reloader's own code hold for every host; the module
    [SpecHost] gives the host described by the design document.

    The module [IMessage] embeds [resolveMessageId] of the iMessage sender. *)

From Stdlib Require Import ZArith Ascii String DecimalString.
From stdpp Require Import gmap strings list fin_maps.

Open Scope string_scope.

(** ** JavaScript values that matter here *)

(** A thrown value: an [Error] object with its [message]; any other value
    that has a string conversion, represented by what [String(value)]
    yields; or a value that is no [Error] and has no string conversion, such
    as [Object.create(null)] or an object whose [toString] throws,
    represented by what [String(value)] throws. *)
Inductive JsValue : Type :=
| JsError (message : string)
| JsOther (repr : string)
| JsOpaque (thrown : JsValue).

(** How a call ends: it returns a value or throws one. *)
Inductive Outcome (A : Type) : Type :=
| Returned (a : A)
| Thrown (err : JsValue).
Arguments Returned {A} a.
Arguments Thrown {A} err.

(** [err instanceof Error ? err.message : String(err)] *)
Definition errorMessage (err : JsValue) : Outcome string :=
  match err with
  | JsError message => Returned message
  | JsOther repr => Returned repr
  | JsOpaque thrown => Thrown thrown
  end.



(** Template-literal conversion of numbers. *)
Definition showNat (n : nat) : string := NilZero.string_of_uint (Nat.to_uint n).
Definition showZ (z : Z) : string := NilZero.string_of_int (Z.to_int z).

(** ** [node:path] on a POSIX host *)

Module Path.

Fixpoint segmentsFrom (s : string) (seg : string) : list string :=
  match s with
  | EmptyString => [seg]
  | String c rest =>
      if Ascii.eqb c "/"%char then seg :: segmentsFrom rest ""
      else segmentsFrom rest (seg ++ String c "")
  end.

Definition segments (s : string) : list string := segmentsFrom s "".

Definition isAbsolute (p : string) : bool :=
  match p with
  | String c _ => Ascii.eqb c "/"%char
  | EmptyString => false
  end.

(** One step of the normalisation: [.] and empty segments vanish, [..]
    drops the last kept segment (nothing above the root). The kept
    segments are held innermost first. *)
Definition normalizeStep (kept : list string) (seg : string) : list string :=
  if String.eqb seg "" then kept
  else if String.eqb seg "." then kept
  else if String.eqb seg ".." then tail kept
  else seg :: kept.

(** [path.resolve(p)] with the process working directory [cwd]. *)
Definition resolve (cwd : string) (p : string) : string :=
  let full := if isAbsolute p then p else cwd ++ "/" ++ p in
  "/" ++ String.concat "/" (rev (fold_left normalizeStep (segments full) [])).

End Path.

(** ** Data model *)

Inductive PluginStatus : Type := loaded | error | disabled.

#[global] Instance PluginStatus_eq_dec : EqDecision PluginStatus.
Proof. solve_decision. Defined.

(** [status === "loaded"] *)
Definition isLoaded (s : PluginStatus) : bool :=
  match s with loaded => true | _ => false end.

Record PluginRecord : Type := {
  plugin_id : string;
  plugin_source : string;
  plugin_status : PluginStatus;
  plugin_error : option string
}.

Record PluginHookRegistration : Type := {
  hook_name : string;
  hook_pluginId : string
}.

(** Gateway handlers are functions of the host; only their identity matters. *)
Definition GatewayRequestHandler : Type := nat.

(** A registry object. [registry_ref] is the identity of the object: two
    registries are the same reference exactly when their [registry_ref]
    agree. *)
Record PluginRegistry : Type := {
  registry_ref : nat;
  registry_plugins : list PluginRecord;
  registry_hooks : list PluginHookRegistration;
  registry_gatewayHandlers : list (string * GatewayRequestHandler)
}.

(** The configuration object; the reloader passes it on untouched. *)
Record OpenClawConfig : Type := {
  config_loadPaths : list string
}.

Record PluginCandidate : Type := {
  candidate_rootDir : string;
  candidate_manifestPath : string;
  candidate_source : string
}.

Record PluginDiscoveryResult : Type := {
  discovery_candidates : list PluginCandidate
}.

(** A loaded module object in the import cache. *)
Definition Module : Type := nat.

(** ** The module cache buster *)

Section ModuleCache.

(** [path.resolve] for the current working directory. *)
Variable resolve : string -> string.

Definition normalizeSource (source : string) : string := resolve source.

(** [Object.keys(requireForCache.cache)]. The keys come in the order of the
    map, not in the order of insertion; what the loop below computes does not
    depend on the order. *)
Definition Object_keys (cache : gmap string Module) : list string :=
  (map_to_list cache).*1.

(** [resolved.some((source) => normalizedKey === source)] *)
Definition someEqual (resolved : list string) (normalizedKey : string) : bool :=
  existsb (fun source => String.eqb normalizedKey source) resolved.

(** The body of the [for ... of] loop, on the pair of the cache and the
    counter [cleared]. *)
Definition purgeStep (resolved : list string)
    (st : gmap string Module * nat) (cacheKey : string) : gmap string Module * nat :=
  let normalizedKey := normalizeSource cacheKey in
  if someEqual resolved normalizedKey
  then (delete cacheKey st.1, st.2 + 1)
  else st.

(** [clearPluginModuleCache] as a function of the import cache: the cache
    after the call and the number returned. *)
Definition purgeModuleCache (sources : list string) (cache : gmap string Module)
    : gmap string Module * nat :=
  let resolved := map normalizeSource sources in
  fold_left (purgeStep resolved) (Object_keys cache) (cache, 0).

(** The entries the purge is meant to hit. *)
Definition requested (sources : list string) (cacheKey : string) : Prop :=
  resolve cacheKey ∈ resolve <$> sources.

#[global] Instance requested_dec sources cacheKey : Decision (requested sources cacheKey).
Proof. unfold requested. apply _. Defined.

End ModuleCache.

(** ** Collaborators of the reloader *)

Inductive LogLevel : Type := Info | Warn | Error | Debug.

(** An injected logger. Where its lines go is outside this subsystem; what
    the reloader can observe of a method is whether the call returns. *)
Record PluginLogger : Type := {
  logger_info : string -> Outcome unit;
  logger_warn : string -> Outcome unit;
  logger_error : string -> Outcome unit;
  logger_debug : string -> Outcome unit
}.

(** [createSubsystemLogger("plugin-reload")], wrapped as the reloader does
    when no logger is injected. *)
Definition subsystemLogger : PluginLogger := {|
  logger_info := fun _ => Returned tt;
  logger_warn := fun _ => Returned tt;
  logger_error := fun _ => Returned tt;
  logger_debug := fun _ => Returned tt
|}.

Record PluginLoadOptions : Type := {
  load_config : OpenClawConfig;
  load_workspaceDir : option string;
  load_logger : option PluginLogger;
  load_coreGatewayHandlers : option (list (string * GatewayRequestHandler));
  load_cache : option bool
}.

Record DiscoverParams : Type := {
  discover_workspaceDir : option string;
  discover_extraPaths : option (list string)
}.

Record ClearCachesOptions : Type := {
  pluginSourcePaths : option (list string)
}.

(** Modelled from the spec: what evaluating a plugin root yields, the
    per-plugin variant [Loaded | Failed(reason) | Disabled] of the design
    notes; the loader that produces it is absent. *)
Inductive PluginEvaluation : Type :=
| Registers (hooks : list string) (commands : list string)
| Fails (reason : string)
| IsDisabled.

(** Modelled from the spec: a plugin root on disk as Discovery and the Loader
    (both absent) see it: the candidate, the module its source file
    evaluates to, and the outcome of its validation and import. *)
Record DiskPlugin : Type := {
  disk_id : string;
  disk_rootDir : string;
  disk_manifestPath : string;
  disk_source : string;
  disk_module : Module;
  disk_evaluation : PluginEvaluation
}.

(** Modelled from the spec: the key of the loader-level cache of the absent
    [loader.js], the effective load parameters: load paths of the
    configuration, the workspace and the discovered roots. *)
Abbreviation CacheKey := (list string * option string * list string)%type.

(** The state the reloader and its collaborators live in. [requireCache] and
    [cwd] are what [reloader.ts] itself reads and writes. Modelled from the
    spec: the other fields, the state of the absent modules ([runtime.js],
    [loader.js], [commands.js], [hook-runner-global.js]) and of the disk. *)
Record Env : Type := {
  requireCache : gmap string Module;           (* requireForCache.cache *)
  cwd : string;                                (* process.cwd() *)
  activeRegistry : option PluginRegistry;      (* the Active Registry Singleton *)
  activeWrites : nat;                          (* how often the singleton was written *)
  registryCache : gmap CacheKey PluginRegistry;(* the loader-level cache *)
  pluginCommands : list string;                (* the Command Registry *)
  hookRunner : option nat;                     (* registry the Hook Runner state derives from *)
  nextRef : nat;                               (* identity of the next object allocated *)
  disk : gmap string (list DiskPlugin)         (* plugin roots found under a directory *)
}.

Definition setRequireCache (cache : gmap string Module) (e : Env) : Env :=
  {| requireCache := cache; cwd := cwd e; activeRegistry := activeRegistry e;
     activeWrites := activeWrites e; registryCache := registryCache e;
     pluginCommands := pluginCommands e; hookRunner := hookRunner e;
     nextRef := nextRef e; disk := disk e |}.

(** The calls the reloader makes into the modules it imports. *)
Inductive Call : Type -> Type :=
| DiscoverOpenClawPlugins (params : DiscoverParams) : Call PluginDiscoveryResult
| ClearPluginCaches (opts : option ClearCachesOptions) : Call unit
| ClearPluginCommands : Call unit
| ResetGlobalHookRunner : Call unit
| LoadOpenClawPlugins (options : PluginLoadOptions) : Call PluginRegistry
| ClearPluginLoaderCache : Call unit
| GetActivePluginRegistry : Call (option PluginRegistry).

(** An implementation of the imported modules. *)
Definition Host : Type := forall X, Call X -> Env -> Outcome X * Env.


(** ** Worlds and the monad of the reloader *)

(** What a run leaves in the trace: a call into an imported module, with the
    environment it found, how it ended and the environment it left; or a
    line handed to a logger. *)
Inductive Event : Type :=
| Invoked {X : Type} (call : Call X) (before : Env) (outcome : Outcome X) (after : Env)
| Logged (level : LogLevel) (message : string).

(** [now_us] is the last reading of the monotonic clock, in microseconds;
    [pending] lists the time that passes before each of the next readings.
    [trace] is the history of calls and log lines, oldest first. *)
Record World : Type := {
  env : Env;
  now_us : Z;
  pending : list N;
  trace : list Event
}.

(** A computation of the reloader: from a world to how it ends and the world
    it leaves. *)
Definition M (A : Type) : Type := World -> Outcome A * World.

Definition ret {A} (a : A) : M A := fun w => (Returned a, w).

Definition bind {A B} (m : M A) (k : A -> M B) : M B := fun w =>
  match m w with
  | (Returned a, w') => k a w'
  | (Thrown err, w') => (Thrown err, w')
  end.

(** [try { body } catch (err) { handler }] *)
Definition tryCatch {A} (body : M A) (handler : JsValue -> M A) : M A := fun w =>
  match body w with
  | (Returned a, w') => (Returned a, w')
  | (Thrown err, w') => handler err w'
  end.

Declare Scope reload_scope.
Delimit Scope reload_scope with reload.
Notation "x <- m ;; k" := (bind m (fun x => k))
  (at level 100, m at next level, right associativity) : reload_scope.
Notation "m ;; k" := (bind m (fun _ => k))
  (at level 100, right associativity) : reload_scope.
Open Scope reload_scope.

(** A call into an imported module, recorded in the trace. *)
Definition invoke (h : Host) {X} (call : Call X) : M X := fun w =>
  let r := h X call (env w) in
  (r.1, {| env := r.2; now_us := now_us w; pending := pending w;
           trace := trace w ++ [Invoked call (env w) r.1 r.2] |}).

(** A call of a logger method with a line; the trace records the call
    whether or not it returns. *)
Definition logLine (method : string -> Outcome unit) (level : LogLevel)
    (message : string) : M unit := fun w =>
  (method message, {| env := env w; now_us := now_us w; pending := pending w;
                      trace := trace w ++ [Logged level message] |}).

(** An expression that returns or throws and leaves the world alone. *)
Definition evaluate {A} (o : Outcome A) : M A := fun w => (o, w).

(** [performance.now()]: the clock moves on by the next pending amount. *)
Definition performance_now : M Z := fun w =>
  let t := (now_us w + Z.of_N (hd 0%N (pending w)))%Z in
  (Returned t, {| env := env w; now_us := t; pending := tail (pending w);
                  trace := trace w |}).

(** [Math.round(performance.now() - start)]. Clock readings are kept in whole
    microseconds, so a difference [delta_us] stands for [delta_us / 1000]
    milliseconds, which is taken to the nearest integer, halves up. The
    arithmetic is exact: the rounding of the binary64 subtraction that comes
    before [Math.round] in JavaScript is not modelled, so that a difference
    within that rounding of a half may come out one millisecond apart from
    the code's. The theorems about [durationMs] state its sign, when it is 0
    and where it is reported, not how it is rounded. *)
Definition Math_round_ms (delta_us : Z) : Z := ((delta_us + 500) / 1000)%Z.

(** ** [reloader.ts] *)

(** [clearPluginModuleCache(sources)] on the import cache of the process. *)
Definition clearPluginModuleCache (sources : list string) : M nat := fun w =>
  let r := purgeModuleCache (Path.resolve (cwd (env w))) sources (requireCache (env w)) in
  (Returned r.2, {| env := setRequireCache r.1 (env w); now_us := now_us w;
                    pending := pending w; trace := trace w |}).

Record ReloadParams : Type := {
  params_config : OpenClawConfig;
  params_workspaceDir : option string;
  params_logger : option PluginLogger;
  params_coreGatewayHandlers : option (list (string * GatewayRequestHandler))
}.

Definition reloadOpenClawPlugins (h : Host) (params : ReloadParams) : M PluginRegistry :=
  active <- invoke h GetActivePluginRegistry ;;
  let sources :=
    match active with
    | Some registry => map plugin_source (registry_plugins registry)
    | None => []
    end in
  clearedModules <- clearPluginModuleCache sources ;;
  invoke h ClearPluginLoaderCache ;;
  registry <- invoke h (LoadOpenClawPlugins {|
    load_config := params_config params;
    load_workspaceDir := params_workspaceDir params;
    load_logger := params_logger params;
    load_coreGatewayHandlers := params_coreGatewayHandlers params;
    load_cache := Some false |}) ;;
  match params_logger params with
  | Some logger =>
      logLine (logger_info logger) Info
        ("[plugins] hot-reload complete (plugins="
         ++ showNat (length (registry_plugins registry))
         ++ ", moduleCacheCleared=" ++ showNat clearedModules ++ ")")
  | None => ret tt
  end ;;
  ret registry.

Record ReloadPluginsOptions : Type := {
  options_config : OpenClawConfig;
  options_workspaceDir : string;
  options_coreGatewayHandlers : option (list (string * GatewayRequestHandler));
  options_logger : option PluginLogger
}.

Record ReloadResult : Type := {
  result_ok : bool;
  result_registry : option PluginRegistry;
  result_pluginCount : option nat;
  result_hookCount : option nat;
  result_error : option string;
  result_durationMs : Z
}.

(** The argument of the fresh load in [reloadPlugins]. *)
Definition freshLoadOptions (options : ReloadPluginsOptions) (logger : PluginLogger)
    : PluginLoadOptions := {|
  load_config := options_config options;
  load_workspaceDir := Some (options_workspaceDir options);
  load_logger := Some logger;
  load_coreGatewayHandlers := options_coreGatewayHandlers options;
  load_cache := Some false |}.

Definition reloadPlugins (h : Host) (options : ReloadPluginsOptions) : M ReloadResult :=
  start <- performance_now ;;
  let logger := default subsystemLogger (options_logger options) in
  tryCatch
    (logLine (logger_info logger) Info "[plugin-reload] Starting plugin hot-reload…" ;;
     discovery <- invoke h (DiscoverOpenClawPlugins {|
       discover_workspaceDir := Some (options_workspaceDir options);
       discover_extraPaths := None |}) ;;
     let sourcePaths := map candidate_rootDir (discovery_candidates discovery) in
     invoke h (ClearPluginCaches (Some {| pluginSourcePaths := Some sourcePaths |})) ;;
     invoke h ClearPluginCommands ;;
     invoke h ResetGlobalHookRunner ;;
     logLine (logger_info logger) Info "[plugin-reload] Caches cleared, re-loading plugins…" ;;
     registry <- invoke h (LoadOpenClawPlugins (freshLoadOptions options logger)) ;;
     let pluginCount :=
       length (List.filter (fun p => isLoaded (plugin_status p)) (registry_plugins registry)) in
     let hookCount := length (registry_hooks registry) in
     finish <- performance_now ;;
     let durationMs := Math_round_ms (finish - start) in
     logLine (logger_info logger) Info
       ("[plugin-reload] Reload complete in " ++ showZ durationMs ++ "ms — "
        ++ showNat pluginCount ++ " plugin(s), " ++ showNat hookCount ++ " hook(s)") ;;
     ret {| result_ok := true; result_registry := Some registry;
            result_pluginCount := Some pluginCount; result_hookCount := Some hookCount;
            result_error := None; result_durationMs := durationMs |})
    (fun err =>
       finish <- performance_now ;;
       let durationMs := Math_round_ms (finish - start) in
       message <- evaluate (errorMessage err) ;;
       logLine (logger_error logger) Error
         ("[plugin-reload] Reload failed after " ++ showZ durationMs ++ "ms: " ++ message) ;;
       ret {| result_ok := false; result_registry := None;
              result_pluginCount := None; result_hookCount := None;
              result_error := Some message; result_durationMs := durationMs |}).

(** ** The collaborators as the design document describes them *)

Module SpecHost.

(** Modelled from the spec: the read-only probing of Discovery
    ([discovery.js], absent). A directory that does not exist holds no plugin
    root, and probing never fails. *)
Definition pluginRoots (e : Env) (dir : string) : list DiskPlugin :=
  default [] (disk e !! dir).

(** Modelled from the spec: the plugin roots Discovery (absent) finds, the
    workspace first, then the extra paths. *)
Definition found (e : Env) (workspaceDir : option string) (extraPaths : list string)
    : list DiskPlugin :=
  match workspaceDir with
  | Some dir => pluginRoots e dir
  | None => []
  end ++ concat (pluginRoots e <$> extraPaths).

(** Modelled from the spec: the candidate Discovery (absent) reports for a
    plugin root. *)
Definition candidateOf (d : DiskPlugin) : PluginCandidate := {|
  candidate_rootDir := disk_rootDir d;
  candidate_manifestPath := disk_manifestPath d;
  candidate_source := disk_source d |}.

(** Modelled from the spec: [discoverOpenClawPlugins] (absent). *)
Definition discover (e : Env) (params : DiscoverParams) : PluginDiscoveryResult := {|
  discovery_candidates :=
    candidateOf <$> found e (discover_workspaceDir params)
                      (default [] (discover_extraPaths params)) |}.

(** Modelled from the spec: the per-candidate part of the Loader
    ([loader.js], absent). A plugin whose manifest or import fails is
    recorded with status [error]; it does not abort the load. *)
Definition pluginOf (d : DiskPlugin) : PluginRecord := {|
  plugin_id := disk_id d;
  plugin_source := disk_source d;
  plugin_status :=
    match disk_evaluation d with
    | Registers _ _ => loaded
    | Fails _ => error
    | IsDisabled => disabled
    end;
  plugin_error :=
    match disk_evaluation d with
    | Fails reason => Some reason
    | _ => None
    end |}.

(** Modelled from the spec: the hooks the Loader (absent) resolves for a
    plugin; only a loaded plugin contributes. *)
Definition hooksOf (d : DiskPlugin) : list PluginHookRegistration :=
  match disk_evaluation d with
  | Registers hooks _ =>
      (fun name => {| hook_name := name; hook_pluginId := disk_id d |}) <$> hooks
  | _ => []
  end.

(** Modelled from the spec: the commands a loaded plugin registers with the
    Command Registry ([commands.js], absent). *)
Definition commandsOf (d : DiskPlugin) : list string :=
  match disk_evaluation d with
  | Registers _ commands => commands
  | _ => []
  end.

(** Modelled from the spec: the import of plugin code, a get-or-load on
    the import cache keyed by source path (design notes). The files a load
    pass imports are the sources of the plugins that are not disabled. *)
(** Modelled from the spec: the code of a disabled plugin is not imported by
    the absent Loader. *)
Definition isImported (d : DiskPlugin) : bool :=
  match disk_evaluation d with
  | IsDisabled => false
  | _ => true
  end.

(** Modelled from the spec: the plugins whose code a load pass of the absent
    Loader imports. *)
Definition imports (ds : list DiskPlugin) : list DiskPlugin :=
  List.filter isImported ds.

(** Modelled from the spec: the get-or-load of the import of one plugin by
    the absent Loader. *)
Definition getOrLoad (cache : gmap string Module) (d : DiskPlugin) : gmap string Module :=
  match cache !! disk_source d with
  | Some _ => cache
  | None => <[disk_source d := disk_module d]> cache
  end.

(** Modelled from the spec: the files a load of the absent Loader imports. *)
Definition importedFiles (options : PluginLoadOptions) (e : Env) : list string :=
  disk_source <$>
    imports (found e (load_workspaceDir options) (config_loadPaths (load_config options))).

(** Modelled from the spec: the [cache] flag of the absent Loader; only
    [cache: false] turns the cache off. *)
Definition cacheEnabled (options : PluginLoadOptions) : bool :=
  match load_cache options with
  | Some false => false
  | _ => true
  end.

(** Modelled from the spec: the fresh pass of the absent Loader: Registry
    assembly, import, publication of the new registry as the active one. *)
Definition loadFresh (options : PluginLoadOptions) (key : CacheKey)
    (ds : list DiskPlugin) (e : Env) : Outcome PluginRegistry * Env :=
  let registry := {|
    registry_ref := nextRef e;
    registry_plugins := pluginOf <$> ds;
    registry_hooks := ds ≫= hooksOf;
    registry_gatewayHandlers := default [] (load_coreGatewayHandlers options) |} in
  (Returned registry,
   {| requireCache := fold_left getOrLoad (imports ds) (requireCache e);
      cwd := cwd e;
      activeRegistry := Some registry;
      activeWrites := S (activeWrites e);
      registryCache :=
        if cacheEnabled options then <[key := registry]> (registryCache e)
        else registryCache e;
      pluginCommands := pluginCommands e ++ ds ≫= commandsOf;
      hookRunner := hookRunner e;
      nextRef := S (nextRef e);
      disk := disk e |}).

(** Modelled from the spec: [loadOpenClawPlugins] (absent). With the cache
    enabled and an entry for the same parameters, the cached registry is
    returned as it is. Otherwise a new registry object is assembled and
    published as the active one; it is stored in the loader-level cache
    only when the cache is enabled. *)
Definition load (options : PluginLoadOptions) (e : Env) : Outcome PluginRegistry * Env :=
  let ds := found e (load_workspaceDir options) (config_loadPaths (load_config options)) in
  let key : CacheKey :=
    (config_loadPaths (load_config options), load_workspaceDir options,
     disk_rootDir <$> ds) in
  if cacheEnabled options then
    match registryCache e !! key with
    | Some cached => (Returned cached, e)
    | None => loadFresh options key ds e
    end
  else loadFresh options key ds e.

(** Modelled from the spec: [clearPluginCaches] and [clearPluginLoaderCache]
    (absent) drop the loader-level cache and leave the import cache alone;
    [clearPluginCommands] empties the Command Registry;
    [resetGlobalHookRunner] returns the Hook Runner to its uninitialised
    state. *)
Definition clearLoaderCache (e : Env) : Env :=
  {| requireCache := requireCache e; cwd := cwd e; activeRegistry := activeRegistry e;
     activeWrites := activeWrites e; registryCache := ∅;
     pluginCommands := pluginCommands e; hookRunner := hookRunner e;
     nextRef := nextRef e; disk := disk e |}.

(** Modelled from the spec: [clearPluginCommands] (absent). *)
Definition clearCommands (e : Env) : Env :=
  {| requireCache := requireCache e; cwd := cwd e; activeRegistry := activeRegistry e;
     activeWrites := activeWrites e; registryCache := registryCache e;
     pluginCommands := []; hookRunner := hookRunner e;
     nextRef := nextRef e; disk := disk e |}.

(** Modelled from the spec: [resetGlobalHookRunner] (absent). *)
Definition resetHookRunner (e : Env) : Env :=
  {| requireCache := requireCache e; cwd := cwd e; activeRegistry := activeRegistry e;
     activeWrites := activeWrites e; registryCache := registryCache e;
     pluginCommands := pluginCommands e; hookRunner := None;
     nextRef := nextRef e; disk := disk e |}.

(** Modelled from the spec: the imported modules together;
    [getActivePluginRegistry] (absent) reads the singleton. *)
Definition host : Host := fun X call =>
  match call in Call X return Env -> Outcome X * Env with
  | DiscoverOpenClawPlugins params => fun e => (Returned (discover e params), e)
  | ClearPluginCaches _ => fun e => (Returned tt, clearLoaderCache e)
  | ClearPluginCommands => fun e => (Returned tt, clearCommands e)
  | ResetGlobalHookRunner => fun e => (Returned tt, resetHookRunner e)
  | LoadOpenClawPlugins options => load options
  | ClearPluginLoaderCache => fun e => (Returned tt, clearLoaderCache e)
  | GetActivePluginRegistry => fun e => (Returned (activeRegistry e), e)
  end.

(** Modelled from the spec: a registry is an object created by one Loader
    pass, so the registries an environment holds were allocated earlier. *)
Definition allocated (e : Env) : Prop :=
  (forall r, activeRegistry e = Some r -> registry_ref r < nextRef e)
  /\ (forall key r, registryCache e !! key = Some r -> registry_ref r < nextRef e).

End SpecHost.

(** A host in the manner of the mocks of [reloader.test.ts]: the imported
    modules do nothing, the load returns a canned registry, and the active
    registry is whatever the environment holds. *)
Definition mockHost (canned : PluginRegistry) : Host := fun X call =>
  match call in Call X return Env -> Outcome X * Env with
  | DiscoverOpenClawPlugins _ => fun e => (Returned {| discovery_candidates := [] |}, e)
  | ClearPluginCaches _ => fun e => (Returned tt, e)
  | ClearPluginCommands => fun e => (Returned tt, e)
  | ResetGlobalHookRunner => fun e => (Returned tt, e)
  | LoadOpenClawPlugins _ => fun e => (Returned canned, e)
  | ClearPluginLoaderCache => fun e => (Returned tt, e)
  | GetActivePluginRegistry => fun e => (Returned (activeRegistry e), e)
  end.

(** A host whose loader throws, like a mocked [loader.js] in a unit test. *)
Definition withFailingLoad (err : JsValue) (h : Host) : Host := fun X call =>
  match call in Call X return Env -> Outcome X * Env with
  | LoadOpenClawPlugins _ => fun e => (Thrown err, e)
  | other => h _ other
  end.



(** ** Observations on a run *)

(** The world with another import cache. *)
Definition withRequireCache (cache : gmap string Module) (w : World) : World :=
  {| env := setRequireCache cache (env w); now_us := now_us w;
     pending := pending w; trace := trace w |}.

(** What a run added to the trace. *)
Definition eventsSince (w w' : World) : list Event :=
  drop (length (trace w)) (trace w').

(** A call, whatever it returns. *)
Inductive AnyCall : Type :=
| Called {X : Type} (call : Call X).

(** The calls into the imported modules, in the order they were made. *)
Fixpoint hostCalls (evs : list Event) : list AnyCall :=
  match evs with
  | [] => []
  | Invoked call _ _ _ :: evs => Called call :: hostCalls evs
  | Logged _ _ :: evs => hostCalls evs
  end.

(** The value a call into an imported module threw, if it threw. *)
Definition thrownBy (ev : Event) : option JsValue :=
  match ev with
  | Invoked _ _ (Thrown err) _ => Some err
  | _ => None
  end.

(** What Discovery returned in a run, if it was called and returned. *)
Definition discoveryOf (ev : Event) : option PluginDiscoveryResult :=
  match ev with
  | Invoked call _ outcome _ =>
      match call in Call X return Outcome X -> option PluginDiscoveryResult with
      | DiscoverOpenClawPlugins _ =>
          fun outcome => match outcome with Returned d => Some d | Thrown _ => None end
      | _ => fun _ => None
      end outcome
  | Logged _ _ => None
  end.

Definition discovered (evs : list Event) : PluginDiscoveryResult :=
  default {| discovery_candidates := [] |} (head (omap discoveryOf evs)).

(** Every call of the run was served by [h], and each call started in the
    environment the previous one left: between [e] and [e'] nothing but the
    imported modules touched the environment. *)
Fixpoint chained (h : Host) (e : Env) (evs : list Event) (e' : Env) : Prop :=
  match evs with
  | [] => e = e'
  | Invoked call before outcome after :: evs =>
      before = e /\ h _ call before = (outcome, after) /\ chained h after evs e'
  | Logged _ _ :: evs => chained h e evs e'
  end.

(** The phases of [reloadPlugins], for a discovery result. *)
Definition reloadPhases (options : ReloadPluginsOptions) (discovery : PluginDiscoveryResult)
    : list AnyCall :=
  [ Called (DiscoverOpenClawPlugins {|
      discover_workspaceDir := Some (options_workspaceDir options);
      discover_extraPaths := None |});
    Called (ClearPluginCaches (Some {|
      pluginSourcePaths := Some (map candidate_rootDir (discovery_candidates discovery)) |}));
    Called ClearPluginCommands;
    Called ResetGlobalHookRunner;
    Called (LoadOpenClawPlugins {|
      load_config := options_config options;
      load_workspaceDir := Some (options_workspaceDir options);
      load_logger := Some (default subsystemLogger (options_logger options));
      load_coreGatewayHandlers := options_coreGatewayHandlers options;
      load_cache := Some false |}) ].

(** The load of a run: its options and the environment it started in. *)
Definition loadOf (ev : Event) : option (PluginLoadOptions * Env) :=
  match ev with
  | Invoked call before _ _ =>
      match call with
      | LoadOpenClawPlugins options => Some (options, before)
      | _ => None
      end
  | Logged _ _ => None
  end.

(** C7 in the words of the design document, for a run that started in [w]
    and added [evs] to the trace: of the files in the import cache, the ones
    gone when the fresh load starts are exactly the ones that load imports. *)
Definition purgesWhatTheLoadImports (w : World) (evs : list Event) : Prop :=
  forall options atLoad,
    head (omap loadOf evs) = Some (options, atLoad) ->
    forall file,
      is_Some (requireCache (env w) !! file) ->
      requireCache atLoad !! file = None <-> file ∈ SpecHost.importedFiles options atLoad.



(** ** A process serving loads and reloads *)

(** What callers ask of the plugin subsystem over the life of a process, on
    the collaborators of the design document. *)
Inductive Request : Type :=
| AskLoad (options : PluginLoadOptions)
| AskReloadPlugins (options : ReloadPluginsOptions)
| AskReloadOpenClawPlugins (params : ReloadParams)
| AskClearPluginCaches.

(** The registry a request hands back, if it hands one back. *)
Definition serve (req : Request) : M (option PluginRegistry) :=
  match req with
  | AskLoad options =>
      registry <- invoke SpecHost.host (LoadOpenClawPlugins options) ;;
      ret (Some registry)
  | AskReloadPlugins options =>
      result <- reloadPlugins SpecHost.host options ;;
      ret (result_registry result)
  | AskReloadOpenClawPlugins params =>
      registry <- reloadOpenClawPlugins SpecHost.host params ;;
      ret (Some registry)
  | AskClearPluginCaches =>
      invoke SpecHost.host (ClearPluginCaches None) ;;
      ret None
  end.

Definition handedOut (o : Outcome (option PluginRegistry)) : list PluginRegistry :=
  match o with
  | Returned (Some registry) => [registry]
  | _ => []
  end.

(** The registries handed back by a sequence of requests, and the world they
    leave. *)
Fixpoint session (reqs : list Request) (w : World) : list PluginRegistry * World :=
  match reqs with
  | [] => ([], w)
  | req :: reqs =>
      let first := serve req w in
      let rest := session reqs first.2 in
      ((handedOut first.1 ++ rest.1)%list, rest.2)
  end.

(** A load with [cache: false], and every reload. *)
Definition forcesFresh (req : Request) : bool :=
  match req with
  | AskLoad options => negb (SpecHost.cacheEnabled options)
  | AskReloadPlugins _ => true
  | AskReloadOpenClawPlugins _ => true
  | AskClearPluginCaches => false
  end.

(** What a request guarantees about object identities: the registries the
    environment holds stay allocated, the allocation counter never goes back,
    a registry handed back is allocated, and one handed back by a fresh load
    was allocated during the request. *)
Definition keepsReferences (before : Env) (o : Outcome (option PluginRegistry))
    (after : Env) (fresh : bool) : Prop :=
  SpecHost.allocated after
  /\ nextRef before <= nextRef after
  /\ forall registry, o = Returned (Some registry) ->
       registry_ref registry < nextRef after
       /\ (fresh = true -> nextRef before <= registry_ref registry).

(** ** Sample inputs *)

Module Sample.

Definition demoPlugin : DiskPlugin := {|
  disk_id := "demo";
  disk_rootDir := "/ws/demo";
  disk_manifestPath := "/ws/demo/openclaw.plugin.json";
  disk_source := "/ws/demo/index.js";
  disk_module := 2;
  disk_evaluation := Registers ["message"] [] |}.

Definition brokenPlugin : DiskPlugin := {|
  disk_id := "broken";
  disk_rootDir := "/ws/broken";
  disk_manifestPath := "/ws/broken/openclaw.plugin.json";
  disk_source := "/ws/broken/index.js";
  disk_module := 3;
  disk_evaluation := Fails "import failed" |}.

(** A process that has loaded nothing yet; [/ws] holds two plugin roots. *)
Definition freshEnv : Env := {|
  requireCache := ∅;
  cwd := "/ws";
  activeRegistry := None;
  activeWrites := 0;
  registryCache := ∅;
  pluginCommands := [];
  hookRunner := None;
  nextRef := 0;
  disk := {[ "/ws" := [demoPlugin; brokenPlugin] ]} |}.

Definition freshWorld : World :=
  {| env := freshEnv; now_us := 0; pending := [1200%N; 3700%N]; trace := [] |}.

Definition config : OpenClawConfig := {| config_loadPaths := [] |}.

Definition options : ReloadPluginsOptions := {|
  options_config := config;
  options_workspaceDir := "/ws";
  options_coreGatewayHandlers := None;
  options_logger := None |}.





Definition optionsNowhere : ReloadPluginsOptions := {|
  options_config := config;
  options_workspaceDir := "/nonexistent-path";
  options_coreGatewayHandlers := None;
  options_logger := None |}.

Definition params : ReloadParams := {|
  params_config := config;
  params_workspaceDir := Some "/ws";
  params_logger := Some subsystemLogger;
  params_coreGatewayHandlers := None |}.

(** A process whose active registry holds a plugin that has since been
    removed from disk; its module is still in the import cache. *)
Definition oldRegistry : PluginRegistry := {|
  registry_ref := 0;
  registry_plugins :=
    [ {| plugin_id := "old"; plugin_source := "/ws/old/index.js";
         plugin_status := loaded; plugin_error := None |} ];
  registry_hooks := [];
  registry_gatewayHandlers := [] |}.

Definition staleEnv : Env := {|
  requireCache := {[ "/ws/old/index.js" := 1 ]};
  cwd := "/ws";
  activeRegistry := Some oldRegistry;
  activeWrites := 1;
  registryCache := ∅;
  pluginCommands := [];
  hookRunner := None;
  nextRef := 1;
  disk := ∅ |}.

Definition staleWorld : World :=
  {| env := staleEnv; now_us := 0; pending := []; trace := [] |}.

(** A process that runs the demo plugin: its module is in the import
    cache, and the file is still on disk. *)
Definition demoRegistry : PluginRegistry := {|
  registry_ref := 0;
  registry_plugins := [SpecHost.pluginOf demoPlugin];
  registry_hooks := SpecHost.hooksOf demoPlugin;
  registry_gatewayHandlers := [] |}.

Definition runningEnv : Env := {|
  requireCache := {[ "/ws/demo/index.js" := 1 ]};
  cwd := "/ws";
  activeRegistry := Some demoRegistry;
  activeWrites := 1;
  registryCache := ∅;
  pluginCommands := [];
  hookRunner := None;
  nextRef := 1;
  disk := {[ "/ws" := [demoPlugin] ]} |}.

Definition runningWorld : World :=
  {| env := runningEnv; now_us := 0; pending := [0%N; 2499%N]; trace := [] |}.

(** An import cache with three modules. *)
Definition cachedWorld : World :=
  withRequireCache
    (<["/ws/a.js" := 1]> (<["/ws/lib/b.js" := 2]> (<["/ws/c.js" := 3]> ∅)))
    freshWorld.

(** A process that loads twice with the cache on, reloads, clears the caches
    and loads again. *)
Definition loadCached : PluginLoadOptions := {|
  load_config := config;
  load_workspaceDir := Some "/ws";
  load_logger := None;
  load_coreGatewayHandlers := None;
  load_cache := None |}.

Definition earlier : list Request :=
  [ AskLoad loadCached; AskLoad loadCached; AskReloadPlugins options;
    AskClearPluginCaches; AskLoad loadCached ].

End Sample.

(** ** Further observations and samples *)

(** The lines handed to a logger during a run, in order. *)
Fixpoint logLines (evs : list Event) : list (LogLevel * string) :=
  match evs with
  | [] => []
  | Logged level message :: evs => (level, message) :: logLines evs
  | Invoked _ _ _ _ :: evs => logLines evs
  end.

(** What the load of a run returned and the environment it left, if it was
    called and returned. *)
Definition loadReturned (ev : Event) : option (PluginRegistry * Env) :=
  match ev with
  | Invoked call _ outcome after =>
      match call in Call X return Outcome X -> option (PluginRegistry * Env) with
      | LoadOpenClawPlugins _ =>
          fun outcome =>
            match outcome with
            | Returned registry => Some (registry, after)
            | Thrown _ => None
            end
      | _ => fun _ => None
      end outcome
  | Logged _ _ => None
  end.


(** The line that reports a finished reload. *)
Definition completeLine (durationMs : Z) (pluginCount hookCount : nat) : string :=
  "[plugin-reload] Reload complete in " ++ showZ durationMs ++ "ms — "
  ++ showNat pluginCount ++ " plugin(s), " ++ showNat hookCount ++ " hook(s)".

(** The line that reports a failed reload. *)
Definition failedLine (durationMs : Z) (message : string) : string :=
  "[plugin-reload] Reload failed after " ++ showZ durationMs ++ "ms: " ++ message.

(** The line [reloadOpenClawPlugins] writes. *)
Definition hotReloadLine (plugins clearedModules : nat) : string :=
  "[plugins] hot-reload complete (plugins=" ++ showNat plugins
  ++ ", moduleCacheCleared=" ++ showNat clearedModules ++ ")".

(** The argument of the load in [reloadOpenClawPlugins]. *)
Definition forcedLoadOptions (params : ReloadParams) : PluginLoadOptions := {|
  load_config := params_config params;
  load_workspaceDir := params_workspaceDir params;
  load_logger := params_logger params;
  load_coreGatewayHandlers := params_coreGatewayHandlers params;
  load_cache := Some false |}.

(** The source files recorded in a registry, if there is one:
    [active?.plugins.map((plugin) => plugin.source) ?? []]. *)
Definition recordedSources (active : option PluginRegistry) : list string :=
  match active with
  | Some registry => map plugin_source (registry_plugins registry)
  | None => []
  end.

Module MoreSamples.




(** A registry with one loaded and one failed plugin. *)
Definition mixedRegistry : PluginRegistry := {|
  registry_ref := 7;
  registry_plugins :=
    [ {| plugin_id := "demo"; plugin_source := "/ws/demo/index.js";
         plugin_status := loaded; plugin_error := None |};
      {| plugin_id := "broken"; plugin_source := "/ws/broken/index.js";
         plugin_status := error; plugin_error := Some "import failed" |} ];
  registry_hooks := [ {| hook_name := "message"; hook_pluginId := "demo" |} ];
  registry_gatewayHandlers := [] |}.

(** A world with a clock that moves and no plugin state. *)
Definition idleWorld : World :=
  {| env := Sample.staleEnv; now_us := 5000; pending := [250%N; 12499%N; 7%N]; trace := [] |}.

(** The process of [Sample.cachedWorld] started from another directory. *)
Definition elsewhereWorld : World :=
  {| env := {| requireCache := requireCache (env Sample.cachedWorld);
               cwd := "/srv/gateway";
               activeRegistry := None; activeWrites := 0; registryCache := ∅;
               pluginCommands := []; hookRunner := None; nextRef := 0;
               disk := ∅ |};
     now_us := 0; pending := []; trace := [] |}.

End MoreSamples.

(** ** [resolveMessageId] of the iMessage sender *)

Module IMessage.

(** A property of the reply of the RPC client, as far as [typeof] tells: a
    string; a number, held as what [String(n)] yields; or anything else
    ([undefined], [null], a boolean, an object). *)
Inductive JsField : Type :=
| FString (s : string)
| FNumber (shown : string)
| FOther.

(** The four properties [resolveMessageId] looks at. *)
Record RpcResult : Type := {
  field_messageId : JsField;
  field_message_id : JsField;
  field_id : JsField;
  field_guid : JsField
}.

(** The values the operands of the [||] chain take: [false], [null] or a
    string. *)
Inductive Operand : Type :=
| OFalse
| ONull
| OString (s : string).

Definition truthy (v : Operand) : bool :=
  match v with
  | OString s => negb (String.eqb s "")
  | _ => false
  end.

(** [a || b] *)
Definition or (a b : Operand) : Operand := if truthy a then a else b.

Section ResolveMessageId.

(** [String.prototype.trim] *)
Variable trim : string -> string.

(** [typeof f === "string" && f.trim()] *)
Definition trimmedString (f : JsField) : Operand :=
  match f with
  | FString s => OString (trim s)
  | _ => OFalse
  end.

(** [typeof f === "number" ? String(f) : null] *)
Definition shownNumber (f : JsField) : Operand :=
  match f with
  | FNumber shown => OString shown
  | _ => ONull
  end.

(** [result] is [null] or [undefined] ([None]) or an object. *)
Definition resolveMessageId (result : option RpcResult) : option string :=
  match result with
  | None => None
  | Some result =>
      let raw :=
        or (or (or (or (or (trimmedString (field_messageId result))
                           (trimmedString (field_message_id result)))
                       (trimmedString (field_id result)))
                   (trimmedString (field_guid result)))
               (shownNumber (field_message_id result)))
           (shownNumber (field_id result)) in
      match raw with
      | OString s => if truthy raw then Some (trim s) else None
      | _ => None
      end
  end.

(** What a property offers as an identifier: a string offers its trimmed
    form unless that is empty; a number offers its string form, where
    numbers are accepted. *)
Definition offeredString (f : JsField) : option string :=
  match f with
  | FString s => if String.eqb (trim s) "" then None else Some (trim s)
  | _ => None
  end.

Definition offeredNumber (f : JsField) : option string :=
  match f with
  | FNumber shown => if String.eqb shown "" then None else Some shown
  | _ => None
  end.

(** The offers of a reply in the order of preference. *)
Definition offers (result : RpcResult) : list (option string) :=
  [ offeredString (field_messageId result);
    offeredString (field_message_id result);
    offeredString (field_id result);
    offeredString (field_guid result);
    offeredNumber (field_message_id result);
    offeredNumber (field_id result) ].

End ResolveMessageId.

(** [String.prototype.trim] on ASCII strings: below U+0080 the white space
    and the line terminators of ECMAScript are TAB, LF, VT, FF, CR and SP. *)
Definition isSpace (c : ascii) : bool :=
  match nat_of_ascii c with
  | 9 | 10 | 11 | 12 | 13 | 32 => true
  | _ => false
  end.

Fixpoint trimStart (s : string) : string :=
  match s with
  | String c rest => if isSpace c then trimStart rest else s
  | EmptyString => s
  end.

Fixpoint trimEnd (s : string) : string :=
  match s with
  | String c rest =>
      match trimEnd rest with
      | EmptyString => if isSpace c then EmptyString else String c EmptyString
      | kept => String c kept
      end
  | EmptyString => s
  end.

Definition trimAscii (s : string) : string := trimEnd (trimStart s).

(** A reply that carries a blank [messageId], a numeric [message_id] and a
    padded [guid]. *)
Definition sampleReply : RpcResult := {|
  field_messageId := FString "   ";
  field_message_id := FNumber "4711";
  field_id := FOther;
  field_guid := FString " p:0/ABC-1 " |}.

End IMessage.

(** * Properties *)

(** ** [path.resolve] on samples *)

Example resolve_relative : Path.resolve "/home/u" "plugins/a.js" = "/home/u/plugins/a.js".
Proof. reflexivity. Qed.

Example resolve_dots : Path.resolve "/home/u" "/ws/./lib/../a.js/" = "/ws/a.js".
Proof. reflexivity. Qed.

Example resolve_above_root : Path.resolve "/home/u" "/../.." = "/".
Proof. reflexivity. Qed.

Example resolve_empty : Path.resolve "/home/u" "" = "/home/u".
Proof. reflexivity. Qed.

(** ** The module cache buster *)

Section ModuleCacheFacts.

Variable resolve : string -> string.


Lemma someEqual_requested sources cacheKey :
  someEqual (map (normalizeSource resolve) sources) (normalizeSource resolve cacheKey) = true
  <-> requested resolve sources cacheKey.
Proof.
  unfold someEqual, requested, normalizeSource. rewrite existsb_exists. split.
  - intros (x & Hin & Heq). apply String.eqb_eq in Heq. rewrite Heq.
    by apply list_elem_of_In.
  - intros Hin. exists (resolve cacheKey). split.
    + by apply list_elem_of_In.
    + apply String.eqb_refl.
Qed.

Lemma someEqual_not_requested sources cacheKey :
  someEqual (map (normalizeSource resolve) sources) (normalizeSource resolve cacheKey) = false
  <-> ~ requested resolve sources cacheKey.
Proof.
  rewrite <- someEqual_requested.
  destruct (someEqual _ _); split; congruence.
Qed.

Lemma foldr_delete_commute (keys : list string) (cache : gmap string Module) k :
  foldr delete (delete k cache) keys = delete k (foldr delete cache keys).
Proof.
  induction keys as [|k' keys IH]; simpl; [done|].
  by rewrite IH, delete_delete.
Qed.

(** The loop over any list of keys: the matching keys are deleted and
    counted. *)
Lemma purge_loop sources (keys : list string) (cache : gmap string Module) (n : nat) :
  fold_left (purgeStep resolve (map (normalizeSource resolve) sources)) keys (cache, n)
  = (foldr delete cache (filter (requested resolve sources) keys),
     n + length (filter (requested resolve sources) keys)).
Proof.
  revert cache n. induction keys as [|k keys IH]; intros cache n; simpl.
  - f_equal. lia.
  - unfold purgeStep at 2. simpl.
    destruct (someEqual _ _) eqn:Hk.
    + apply someEqual_requested in Hk.
      rewrite IH, filter_cons_True by done. simpl. f_equal; [|lia].
      apply foldr_delete_commute.
    + apply someEqual_not_requested in Hk.
      by rewrite IH, filter_cons_False.
Qed.

Lemma lookup_foldr_delete (keys : list string) (cache : gmap string Module) k :
  foldr delete cache keys !! k = if decide (k ∈ keys) then None else cache !! k.
Proof.
  induction keys as [|k' keys IH]; simpl; [done|].
  destruct (decide (k' = k)) as [->|Hne].
  - rewrite lookup_delete_eq. rewrite decide_True; [done|left].
  - rewrite lookup_delete_ne, IH by done.
    destruct (decide (k ∈ keys)) as [Hin|Hnin].
    + rewrite decide_True; [done|by right].
    + rewrite decide_False; [done|].
      intros [Heq|Hin]%elem_of_cons; [congruence|done].
Qed.

(** What the purge leaves: the entries that were not requested. *)
Lemma purge_cache sources cache :
  (purgeModuleCache resolve sources cache).1
  = filter (fun kv => ~ requested resolve sources kv.1) cache.
Proof.
  unfold purgeModuleCache. rewrite purge_loop. simpl.
  apply map_eq. intros k. rewrite lookup_foldr_delete.
  destruct (decide (k ∈ filter (requested resolve sources) (Object_keys cache))) as [Hin|Hnin].
  - symmetry. apply map_lookup_filter_None. right. intros x _ Hn.
    apply list_elem_of_filter in Hin. by destruct Hin.
  - destruct (cache !! k) as [x|] eqn:Hk.
    + symmetry. apply map_lookup_filter_Some. split; [done|]. simpl.
      intros Hreq. apply Hnin, list_elem_of_filter. split; [done|].
      unfold Object_keys. apply list_elem_of_fmap. exists (k, x).
      split; [done|]. by apply elem_of_map_to_list.
    + symmetry. apply map_lookup_filter_None. by left.
Qed.

(** What the purge returns: the number of requested entries. *)
Lemma purge_count sources cache :
  (purgeModuleCache resolve sources cache).2
  = length (filter (requested resolve sources) (Object_keys cache)).
Proof. unfold purgeModuleCache. by rewrite purge_loop. Qed.

Lemma Object_keys_NoDup (cache : gmap string Module) : NoDup (Object_keys cache).
Proof. apply NoDup_fst_map_to_list. Qed.

Lemma elem_of_Object_keys (cache : gmap string Module) k :
  k ∈ Object_keys cache <-> is_Some (cache !! k).
Proof.
  unfold Object_keys. rewrite list_elem_of_fmap. split.
  - intros ([k' x] & -> & Hin). apply elem_of_map_to_list in Hin. by exists x.
  - intros [x Hx]. exists (k, x). split; [done|]. by apply elem_of_map_to_list.
Qed.

Lemma Object_keys_length (cache : gmap string Module) :
  length (Object_keys cache) = size cache.
Proof. unfold Object_keys. by rewrite length_fmap, length_map_to_list. Qed.

Lemma size_foldr_delete (keys : list string) (cache : gmap string Module) :
  NoDup keys -> (forall k, k ∈ keys -> is_Some (cache !! k)) ->
  size (foldr delete cache keys) + length keys = size cache.
Proof.
  induction 1 as [|k keys Hk Hnd IH]; intros Hin; simpl; [lia|].
  rewrite map_size_delete_Some.
  - assert (size (foldr delete cache keys) + length keys = size cache) as Hsz.
    { apply IH. intros k' Hk'. apply Hin. by right. }
    assert (is_Some (foldr delete cache keys !! k)) as Hsome.
    { rewrite lookup_foldr_delete, decide_False by done. apply Hin. left. }
    apply map_size_ne_0_lookup_2 in Hsome. lia.
  - rewrite lookup_foldr_delete, decide_False by done. apply Hin. left.
Qed.

(** The number returned is the number of entries that disappeared. *)
Lemma purge_size sources cache :
  size (purgeModuleCache resolve sources cache).1 + (purgeModuleCache resolve sources cache).2
  = size cache.
Proof.
  unfold purgeModuleCache.
  rewrite purge_loop. simpl. apply size_foldr_delete.
  - apply NoDup_filter, Object_keys_NoDup.
  - intros k [_ Hk]%list_elem_of_filter. by apply elem_of_Object_keys.
Qed.

(** Sources that name distinct files, each with exactly one entry in a
    cache holding one entry per file: as many entries go as there are
    sources. *)
Lemma purge_count_present sources cache :
  NoDup (resolve <$> sources) ->
  (forall k1 k2, is_Some (cache !! k1) -> is_Some (cache !! k2) ->
                 resolve k1 = resolve k2 -> k1 = k2) ->
  (forall s, s ∈ sources -> exists k, is_Some (cache !! k) /\ resolve k = resolve s) ->
  (purgeModuleCache resolve sources cache).2 = length sources.
Proof.
  intros Hsources Hinj Hpresent. rewrite purge_count.
  rewrite <- (length_fmap resolve (filter _ _)), <- (length_fmap resolve sources).
  apply Permutation_length, NoDup_Permutation; [|done|].
  - apply NoDup_fmap_2_strong.
    + intros k1 k2 [_ H1]%list_elem_of_filter [_ H2]%list_elem_of_filter.
      apply Hinj; by apply elem_of_Object_keys.
    + apply NoDup_filter, Object_keys_NoDup.
  - intros x. rewrite !list_elem_of_fmap. split.
    + intros (k & -> & [Hreq _]%list_elem_of_filter).
      by apply list_elem_of_fmap in Hreq.
    + intros (s & -> & Hs). destruct (Hpresent s Hs) as (k & Hk & Heq).
      exists k. split; [done|]. apply list_elem_of_filter. split.
      * unfold requested. rewrite Heq. apply list_elem_of_fmap. eauto.
      * by apply elem_of_Object_keys.
Qed.

(** Sources that match no entry: nothing is removed. *)
Lemma purge_absent sources cache :
  (forall k, is_Some (cache !! k) -> ~ requested resolve sources k) ->
  purgeModuleCache resolve sources cache = (cache, 0).
Proof.
  intros Habsent.
  assert (forall keys, (forall k, k ∈ keys -> is_Some (cache !! k)) ->
                       filter (requested resolve sources) keys = []) as Hnone.
  { induction keys as [|k keys IH]; intros Hkeys; [done|].
    rewrite filter_cons_False.
    - apply IH. intros k' Hk'. apply Hkeys. by right.
    - apply Habsent, Hkeys. left. }
  specialize (Hnone (Object_keys cache) (fun k => proj1 (elem_of_Object_keys cache k))).
  unfold purgeModuleCache.
  by rewrite purge_loop, Hnone.
Qed.

(** A second purge of the same sources finds nothing. *)
Lemma purge_idempotent sources cache :
  purgeModuleCache resolve sources (purgeModuleCache resolve sources cache).1
  = ((purgeModuleCache resolve sources cache).1, 0).
Proof.
  apply purge_absent. intros k [x Hx]. rewrite purge_cache in Hx.
  apply map_lookup_filter_Some in Hx. by destruct Hx.
Qed.

End ModuleCacheFacts.

Lemma withRequireCache_same (w : World) : withRequireCache (requireCache (env w)) w = w.
Proof. by destruct w as [[] ? ? ?]. Qed.

(** C4. For every list of source paths and every state of the import cache,
    [clearPluginModuleCache] removes exactly the entries whose key resolves
    to the canonical form of a requested path (nothing else in the world
    changes) and returns the number of entries removed. When the sources name
    pairwise distinct files, each with an entry in a cache that holds one
    entry per file, that number is the number of sources. When no source
    matches an entry, it returns 0 and leaves the world as it was; purging
    again after a purge is such a case. *)
Theorem clearPluginModuleCache_purges_requested (sources : list string) (w : World) :
  let resolve := Path.resolve (cwd (env w)) in
  let cache := requireCache (env w) in
  let cache' := filter (fun kv => ~ requested resolve sources kv.1) cache in
  exists cleared : nat,
    clearPluginModuleCache sources w = (Returned cleared, withRequireCache cache' w)
    /\ size cache' + cleared = size cache
    /\ cleared = length (filter (requested resolve sources) (Object_keys cache))
    /\ (NoDup (resolve <$> sources) ->
        NoDup (resolve <$> Object_keys cache) ->
        Forall (fun s => resolve s ∈ resolve <$> Object_keys cache) sources ->
        cleared = length sources)
    /\ (Forall (fun k => resolve k ∉ resolve <$> sources) (Object_keys cache) ->
        cleared = 0 /\ withRequireCache cache' w = w)
    /\ clearPluginModuleCache sources (withRequireCache cache' w)
       = (Returned 0, withRequireCache cache' w).
Proof.
  intros resolve cache cache'.
  exists (purgeModuleCache resolve sources cache).2.
  assert ((purgeModuleCache resolve sources cache).1 = cache') as Hcache
    by apply purge_cache.
  split; [|split; [|split; [|split; [|split]]]].
  - unfold clearPluginModuleCache. fold resolve cache. by rewrite Hcache.
  - rewrite <- Hcache. apply purge_size.
  - apply purge_count.
  - intros Hsources Hkeys Hpresent. apply purge_count_present; [done| |].
    + intros k1 k2 H1 H2 Heq.
      apply elem_of_Object_keys in H1. apply elem_of_Object_keys in H2.
      apply list_elem_of_lookup in H1 as [i1 H1]. apply list_elem_of_lookup in H2 as [i2 H2].
      assert (i1 = i2) as ->.
      { eapply NoDup_lookup; [exact Hkeys| |].
        - rewrite list_lookup_fmap, H1. done.
        - rewrite list_lookup_fmap, H2. simpl. by rewrite Heq. }
      congruence.
    + intros s Hs. rewrite Forall_forall in Hpresent.
      apply Hpresent, list_elem_of_fmap in Hs as (k & Heq & Hk).
      exists k. split; [by apply elem_of_Object_keys|done].
  - intros Habsent. rewrite Forall_forall in Habsent.
    assert (purgeModuleCache resolve sources cache = (cache, 0)) as Hnone.
    { apply purge_absent. intros k Hk. apply Habsent. by apply elem_of_Object_keys. }
    rewrite Hnone in Hcache. simpl in Hcache. rewrite Hnone, <- Hcache. simpl.
    split; [done|]. apply withRequireCache_same.
  - unfold clearPluginModuleCache. simpl. fold resolve cache.
    rewrite <- Hcache, purge_idempotent. simpl.
    unfold withRequireCache. simpl. done.
Qed.

(** Two sources, one of them relative, both cached; and a source that is
    not cached. *)
Lemma clearPluginModuleCache_purges_requested_witness :
  (exists w', clearPluginModuleCache ["lib/../a.js"; "/ws/lib/b.js"] Sample.cachedWorld
              = (Returned 2, w')
              /\ Object_keys (requireCache (env w')) = ["/ws/c.js"])
  /\ clearPluginModuleCache ["/ws/missing.js"] Sample.cachedWorld
     = (Returned 0, Sample.cachedWorld).
Proof.
  split.
  - destruct (clearPluginModuleCache_purges_requested
                ["lib/../a.js"; "/ws/lib/b.js"] Sample.cachedWorld)
      as (cleared & Hrun & _ & _ & Hpresent & _).
    assert (cleared = 2) as -> by (apply Hpresent; compute_done).
    eexists. split; [exact Hrun|]. vm_compute. reflexivity.
  - destruct (clearPluginModuleCache_purges_requested
                ["/ws/missing.js"] Sample.cachedWorld)
      as (cleared & Hrun & _ & _ & _ & Habsent & _).
    destruct Habsent as [-> Hsame]; [compute_done|].
    rewrite Hsame in Hrun. exact Hrun.
Defined.

(** ** Running the reloader step by step *)

Lemma run_bind {A B} (m : M A) (k : A -> M B) (w : World) :
  (x <- m ;; k x) w
  = match m w with
    | (Returned a, w') => k a w'
    | (Thrown err, w') => (Thrown err, w')
    end.
Proof. reflexivity. Qed.

Lemma run_tryCatch_bind {A B} (m : M A) (k : A -> M B) (handler : JsValue -> M B)
    (w : World) :
  tryCatch (x <- m ;; k x) handler w
  = match m w with
    | (Returned a, w') => tryCatch (k a) handler w'
    | (Thrown err, w') => handler err w'
    end.
Proof. unfold tryCatch, bind. by destruct (m w) as [[a|err] w']. Qed.

Lemma run_tryCatch_ret {A} (a : A) (handler : JsValue -> M A) (w : World) :
  tryCatch (ret a) handler w = (Returned a, w).
Proof. reflexivity. Qed.

Lemma run_ret {A} (a : A) (w : World) : ret a w = (Returned a, w).
Proof. reflexivity. Qed.

Lemma run_invoke (h : Host) {X} (call : Call X) (w : World) :
  invoke h call w
  = match h X call (env w) with
    | (outcome, after) =>
        (outcome, {| env := after; now_us := now_us w; pending := pending w;
                     trace := trace w ++ [Invoked call (env w) outcome after] |})
    end.
Proof. unfold invoke. by destruct (h X call (env w)). Qed.

Lemma run_logLine method level message (w : World) :
  logLine method level message w
  = (method message, {| env := env w; now_us := now_us w; pending := pending w;
                        trace := trace w ++ [Logged level message] |}).
Proof. reflexivity. Qed.

Lemma run_performance_now (w : World) :
  performance_now w
  = (Returned (now_us w + Z.of_N (hd 0%N (pending w)))%Z,
     {| env := env w; now_us := (now_us w + Z.of_N (hd 0%N (pending w)))%Z;
        pending := tail (pending w); trace := trace w |}).
Proof. reflexivity. Qed.

Lemma run_evaluate {A} (o : Outcome A) (w : World) : evaluate o w = (o, w).
Proof. reflexivity. Qed.

Lemma clearPluginModuleCache_nil (w : World) :
  clearPluginModuleCache [] w = (Returned 0, w).
Proof.
  unfold clearPluginModuleCache. rewrite purge_absent.
  - simpl. f_equal. apply withRequireCache_same.
  - intros k _ Hk. unfold requested in Hk. simpl in Hk. by apply elem_of_nil in Hk.
Qed.

Lemma eventsSince_app (w : World) e t p (evs : list Event) :
  eventsSince w {| env := e; now_us := t; pending := p; trace := trace w ++ evs |} = evs.
Proof. unfold eventsSince. simpl. apply drop_app_length. Qed.

Ltac run_simpl :=
  cbv beta iota;
  cbn [fst snd env trace now_us pending
       result_ok result_registry result_pluginCount result_hookCount
       result_error result_durationMs].

Ltac run_case :=
  match goal with
  | |- context [ match ?h ?X ?c ?e with _ => _ end ] =>
      is_var h; destruct (h X c e) as [[?|?] ?] eqn:?
  | |- context [ match logger_info ?l ?m with _ => _ end ] =>
      destruct (logger_info l m) as [[]|?] eqn:?
  | |- context [ match logger_error ?l ?m with _ => _ end ] =>
      destruct (logger_error l m) as [[]|?] eqn:?
  | |- context [ match errorMessage ?err with _ => _ end ] =>
      destruct (errorMessage err) as [?|?] eqn:?
  end.

Ltac run_step :=
  first [ rewrite run_tryCatch_bind | rewrite run_bind
        | rewrite run_tryCatch_ret | rewrite run_ret ];
  try first [ rewrite run_invoke | rewrite run_logLine | rewrite run_performance_now
            | rewrite run_evaluate ];
  run_simpl;
  try (run_case; run_simpl).

(** The trace of a finished run, as the events added to the one before. *)
Ltac run_events :=
  rewrite <- ?app_assoc; rewrite ?eventsSince_app;
  cbn [app hostCalls omap head discovered discoveryOf chained thrownBy default
       mbind option_bind list_omap].

Ltac run_reloadPlugins logger :=
  unfold reloadPlugins;
  match goal with
  | |- context [ default subsystemLogger (options_logger ?o) ] =>
      set (logger := default subsystemLogger (options_logger o)) in *
  end;
  repeat run_step.

Lemma isLoaded_filter (ps : list PluginRecord) :
  List.filter (fun p => isLoaded (plugin_status p)) ps
  = filter (fun p => plugin_status p = loaded) ps.
Proof.
  induction ps as [|p ps IH]; [done|]. simpl. rewrite IH.
  destruct (plugin_status p) eqn:Hp; simpl.
  - by rewrite filter_cons_True.
  - rewrite filter_cons_False; [done|congruence].
  - rewrite filter_cons_False; [done|congruence].
Qed.

(** C5. On a successful [reloadPlugins] call, [pluginCount] is the number of
    plugins of the returned registry whose status is [loaded], [hookCount] is
    the length of its hook sequence, and that registry is the one the fresh
    load returned. *)
Theorem reloadPlugins_counts (h : Host) (options : ReloadPluginsOptions)
    (w w' : World) (result : ReloadResult) :
  reloadPlugins h options w = (Returned result, w') ->
  result_ok result = true ->
  exists registry,
    result_registry result = Some registry
    /\ result_pluginCount result
       = Some (length (filter (fun p => plugin_status p = loaded) (registry_plugins registry)))
    /\ result_hookCount result = Some (length (registry_hooks registry))
    /\ exists loadOptions before after,
         last (hostCalls (eventsSince w w')) = Some (Called (LoadOpenClawPlugins loadOptions))
         /\ Invoked (LoadOpenClawPlugins loadOptions) before (Returned registry) after
            ∈ eventsSince w w'.
Proof.
  run_reloadPlugins logger.
  all: intros [= <- <-]; run_simpl; try discriminate.
  intros _. eexists. rewrite isLoaded_filter. repeat split.
  run_events. do 3 eexists. split; [reflexivity|].
  rewrite !elem_of_cons. eauto 12.
Qed.

Lemma reloadPlugins_counts_witness :
  exists result w',
    reloadPlugins SpecHost.host Sample.options Sample.freshWorld = (Returned result, w')
    /\ result_ok result = true
    /\ result_pluginCount result = Some 1
    /\ result_hookCount result = Some 1.
Proof.
  eexists _, _. split; [vm_compute; reflexivity|]. split; [reflexivity|].
  destruct (reloadPlugins_counts SpecHost.host Sample.options Sample.freshWorld _ _
              ltac:(vm_compute; reflexivity) eq_refl)
    as (registry & Hregistry & Hplugins & Hhooks & _).
  injection Hregistry as <-. split; [exact Hplugins | exact Hhooks].
Defined.

(** The run of [reloadPlugins] against any host: the calls it makes form an
    initial part of the fixed sequence of phases, each call starts in the
    environment the previous one left, and the sequence is complete when the
    result is a success. *)
Lemma reloadPlugins_run (h : Host) (options : ReloadPluginsOptions) (w : World) :
  let run := reloadPlugins h options w in
  let evs := eventsSince w run.2 in
  trace run.2 = (trace w ++ evs)%list
  /\ hostCalls evs `prefix_of` reloadPhases options (discovered evs)
  /\ chained h (env w) evs (env run.2)
  /\ (forall result, run.1 = Returned result -> result_ok result = true ->
        hostCalls evs = reloadPhases options (discovered evs)).
Proof.
  run_reloadPlugins logger.
  all: rewrite <- ?app_assoc; split; [by rewrite eventsSince_app|].
  all: run_events; unfold reloadPhases.
  all: split; [by eexists|].
  all: split; [by repeat split|].
  all: intros result [= <-]; run_simpl; try discriminate; done.
Qed.

(** C6. Every [reloadPlugins] invocation calls into the imported modules in
    the fixed order: Discovery over [options.workspaceDir], then the clearing
    of the loader caches, of the command registry and of the hook runner, then
    the load, with [cache: false] and the supplied configuration, workspace
    directory, logger and core gateway handlers. A call is made only when all
    calls before it returned; on a successful reload all of them were made. *)
Theorem reloadPlugins_phase_order (h : Host) (options : ReloadPluginsOptions) (w : World) :
  let run := reloadPlugins h options w in
  let calls := hostCalls (eventsSince w run.2) in
  let discovery := discovered (eventsSince w run.2) in
  let phases :=
    [ Called (DiscoverOpenClawPlugins {|
        discover_workspaceDir := Some (options_workspaceDir options);
        discover_extraPaths := None |});
      Called (ClearPluginCaches (Some {|
        pluginSourcePaths := Some (map candidate_rootDir (discovery_candidates discovery)) |}));
      Called ClearPluginCommands;
      Called ResetGlobalHookRunner;
      Called (LoadOpenClawPlugins {|
        load_config := options_config options;
        load_workspaceDir := Some (options_workspaceDir options);
        load_logger := Some (default subsystemLogger (options_logger options));
        load_coreGatewayHandlers := options_coreGatewayHandlers options;
        load_cache := Some false |}) ] in
  calls `prefix_of` phases
  /\ (forall result, run.1 = Returned result -> result_ok result = true -> calls = phases).
Proof.
  intros run calls discovery phases.
  destruct (reloadPlugins_run h options w) as (_ & Hprefix & _ & Hall).
  split; [exact Hprefix | exact Hall].
Qed.

Lemma reloadPlugins_phase_order_witness :
  hostCalls (eventsSince Sample.freshWorld
               (reloadPlugins SpecHost.host Sample.options Sample.freshWorld).2)
  = [ Called (DiscoverOpenClawPlugins {|
        discover_workspaceDir := Some "/ws"; discover_extraPaths := None |});
      Called (ClearPluginCaches (Some {|
        pluginSourcePaths := Some ["/ws/demo"; "/ws/broken"] |}));
      Called ClearPluginCommands;
      Called ResetGlobalHookRunner;
      Called (LoadOpenClawPlugins {|
        load_config := Sample.config;
        load_workspaceDir := Some "/ws";
        load_logger := Some subsystemLogger;
        load_coreGatewayHandlers := None;
        load_cache := Some false |}) ].
Proof.
  eapply (proj2 (reloadPlugins_phase_order SpecHost.host Sample.options Sample.freshWorld)).
  - vm_compute. reflexivity.
  - reflexivity.
Defined.

(** ** Failure of a reload *)

Ltac logger_returns Hlogger :=
  try match goal with
  | H : logger_error _ _ = Thrown _ |- _ => rewrite Hlogger in H; discriminate H
  | H : logger_info _ _ = Thrown _ |- _ => rewrite Hlogger in H; discriminate H
  end.













(** ** The source-path variant *)

Lemma clearPluginModuleCache_run (sources : list string) (w : World) :
  clearPluginModuleCache sources w
  = (Returned (purgeModuleCache (Path.resolve (cwd (env w))) sources (requireCache (env w))).2,
     withRequireCache
       (filter (fun kv => ~ requested (Path.resolve (cwd (env w))) sources kv.1)
          (requireCache (env w))) w).
Proof. unfold clearPluginModuleCache. by rewrite purge_cache. Qed.

(** C10. When [getActivePluginRegistry] returns [undefined],
    [reloadOpenClawPlugins] hands [clearPluginModuleCache] the empty list, so
    that no entry of the import cache is removed; it then clears the loader
    cache and loads with [cache: false], in the environment each previous
    call left, and returns the registry the load returned. *)
Theorem reloadOpenClawPlugins_without_active (h : Host) (params : ReloadParams)
    (w : World) (e1 e2 e3 : Env) (registry : PluginRegistry) :
  let loadOptions := {|
    load_config := params_config params;
    load_workspaceDir := params_workspaceDir params;
    load_logger := params_logger params;
    load_coreGatewayHandlers := params_coreGatewayHandlers params;
    load_cache := Some false |} in
  h _ GetActivePluginRegistry (env w) = (Returned None, e1) ->
  h _ ClearPluginLoaderCache e1 = (Returned tt, e2) ->
  h _ (LoadOpenClawPlugins loadOptions) e2 = (Returned registry, e3) ->
  (forall logger message,
      params_logger params = Some logger -> logger_info logger message = Returned tt) ->
  (forall w0, clearPluginModuleCache [] w0 = (Returned 0, w0))
  /\ reloadOpenClawPlugins h params w
     = (Returned registry,
        {| env := e3; now_us := now_us w; pending := pending w;
           trace :=
             trace w
             ++ [ Invoked GetActivePluginRegistry (env w) (Returned None) e1;
                  Invoked ClearPluginLoaderCache e1 (Returned tt) e2;
                  Invoked (LoadOpenClawPlugins loadOptions) e2 (Returned registry) e3 ]
             ++ match params_logger params with
                | Some _ =>
                    [ Logged Info
                        ("[plugins] hot-reload complete (plugins="
                         ++ showNat (length (registry_plugins registry))
                         ++ ", moduleCacheCleared=" ++ showNat 0 ++ ")") ]
                | None => []
                end |}).
Proof.
  intros loadOptions Hactive Hclear Hload Hlogger.
  split; [apply clearPluginModuleCache_nil|].
  unfold reloadOpenClawPlugins.
  rewrite run_bind, run_invoke, Hactive. run_simpl.
  rewrite run_bind, clearPluginModuleCache_nil. run_simpl.
  rewrite run_bind, run_invoke. run_simpl. rewrite Hclear. run_simpl.
  rewrite run_bind, run_invoke. run_simpl. fold loadOptions. rewrite Hload. run_simpl.
  destruct (params_logger params) as [logger|] eqn:Hsome.
  - rewrite run_bind, run_logLine, (Hlogger logger _ eq_refl). run_simpl.
    rewrite run_ret, <- !app_assoc. reflexivity.
  - rewrite run_bind, run_ret. run_simpl.
    rewrite run_ret, <- !app_assoc. reflexivity.
Qed.

Lemma reloadOpenClawPlugins_without_active_witness :
  exists w',
    reloadOpenClawPlugins SpecHost.host Sample.params Sample.freshWorld
    = (Returned {| registry_ref := 0;
                   registry_plugins :=
                     [SpecHost.pluginOf Sample.demoPlugin; SpecHost.pluginOf Sample.brokenPlugin];
                   registry_hooks := SpecHost.hooksOf Sample.demoPlugin;
                   registry_gatewayHandlers := [] |}, w')
    /\ last (trace w')
       = Some (Logged Info "[plugins] hot-reload complete (plugins=2, moduleCacheCleared=0)").
Proof.
  eexists. split.
  - apply (reloadOpenClawPlugins_without_active SpecHost.host Sample.params Sample.freshWorld).
    + reflexivity.
    + reflexivity.
    + vm_compute. reflexivity.
    + intros logger message [= <-]. reflexivity.
  - vm_compute. reflexivity.
Defined.

(** C7 as stated fails, in both variants. In the source-path variant the
    module of a plugin that was removed from disk is purged although the load
    does not import it. In the orchestrator the module of a plugin that is
    still on disk stays in the import cache although the load imports that
    file. *)
Lemma purge_is_not_what_the_load_imports :
  ~ purgesWhatTheLoadImports Sample.staleWorld
      (eventsSince Sample.staleWorld
         (reloadOpenClawPlugins SpecHost.host Sample.params Sample.staleWorld).2)
  /\ ~ purgesWhatTheLoadImports Sample.runningWorld
        (eventsSince Sample.runningWorld
           (reloadPlugins SpecHost.host Sample.options Sample.runningWorld).2).
Proof.
  split; intros Hclaim.
  - specialize (Hclaim _ _ ltac:(vm_compute; reflexivity) "/ws/old/index.js").
    destruct Hclaim as [Himported _]; [by eexists|].
    specialize (Himported ltac:(vm_compute; reflexivity)).
    vm_compute in Himported. by apply elem_of_nil in Himported.
  - specialize (Hclaim _ _ ltac:(vm_compute; reflexivity) "/ws/demo/index.js").
    destruct Hclaim as [_ Hpurged]; [by eexists|].
    specialize (Hpurged ltac:(vm_compute; left)).
    vm_compute in Hpurged. discriminate Hpurged.
Qed.

(** C7, as the code has it. In [reloadOpenClawPlugins] the import cache the
    loader-cache clearing finds is the one [getActivePluginRegistry] left,
    less exactly the entries whose key resolves to the canonical form of a
    plugin source recorded in the previous active registry. [reloadPlugins]
    hands the discovered root directories to [clearPluginCaches] and leaves
    the environment between its calls as it is: it removes no entry of the
    import cache itself. *)
Theorem reload_cache_clearing_targets (h : Host) :
  (forall params w active e1,
      h _ GetActivePluginRegistry (env w) = (Returned active, e1) ->
      let sources :=
        match active with
        | Some registry => map plugin_source (registry_plugins registry)
        | None => []
        end in
      let purged :=
        setRequireCache
          (filter (fun kv => ~ requested (Path.resolve (cwd e1)) sources kv.1)
             (requireCache e1)) e1 in
      exists outcome after rest,
        eventsSince w (reloadOpenClawPlugins h params w).2
        = Invoked GetActivePluginRegistry (env w) (Returned active) e1
          :: Invoked ClearPluginLoaderCache purged outcome after :: rest)
  /\ (forall options w,
        let evs := eventsSince w (reloadPlugins h options w).2 in
        chained h (env w) evs (env (reloadPlugins h options w).2)
        /\ hostCalls evs `prefix_of` reloadPhases options (discovered evs)).
Proof.
  split.
  - intros params w active e1 Hactive sources purged.
    unfold reloadOpenClawPlugins.
    rewrite run_bind, run_invoke, Hactive. run_simpl.
    rewrite run_bind, clearPluginModuleCache_run. run_simpl.
    fold sources. unfold withRequireCache. run_simpl. fold purged.
    run_step; [|run_events; by do 3 eexists].
    run_step; [|run_events; by do 3 eexists].
    destruct (params_logger params) as [logger|]; repeat run_step.
    all: run_events; by do 3 eexists.
  - intros options w evs.
    destruct (reloadPlugins_run h options w) as (_ & Hprefix & Hchained & _).
    by split.
Qed.

Lemma reload_cache_clearing_targets_witness :
  let purged :=
    setRequireCache
      (filter (fun kv => ~ requested (Path.resolve "/ws") ["/ws/old/index.js"] kv.1)
         (requireCache Sample.staleEnv)) Sample.staleEnv in
  requireCache purged = ∅
  /\ exists outcome after rest,
       eventsSince Sample.staleWorld
         (reloadOpenClawPlugins SpecHost.host Sample.params Sample.staleWorld).2
       = Invoked GetActivePluginRegistry Sample.staleEnv
           (Returned (Some Sample.oldRegistry)) Sample.staleEnv
         :: Invoked ClearPluginLoaderCache purged outcome after :: rest.
Proof.
  split; [vm_compute; reflexivity|].
  apply (proj1 (reload_cache_clearing_targets SpecHost.host)
           Sample.params Sample.staleWorld (Some Sample.oldRegistry) Sample.staleEnv).
  reflexivity.
Defined.

(** ** The reloader on the collaborators of the design document *)

Lemma load_uncached (options : PluginLoadOptions) (e : Env) :
  SpecHost.cacheEnabled options = false ->
  SpecHost.load options e
  = SpecHost.loadFresh options
      (config_loadPaths (load_config options), load_workspaceDir options,
       disk_rootDir <$> SpecHost.found e (load_workspaceDir options)
                          (config_loadPaths (load_config options)))
      (SpecHost.found e (load_workspaceDir options) (config_loadPaths (load_config options)))
      e.
Proof. intros Hoff. unfold SpecHost.load. by rewrite Hoff. Qed.

Ltac spec_step :=
  first [ rewrite run_tryCatch_bind | rewrite run_bind
        | rewrite run_tryCatch_ret | rewrite run_ret ];
  try first [ rewrite run_invoke | rewrite run_logLine | rewrite run_performance_now
            | rewrite run_evaluate | rewrite clearPluginModuleCache_run ];
  cbn [SpecHost.host];
  try (rewrite load_uncached by reflexivity; unfold SpecHost.loadFresh);
  run_simpl;
  try (run_case; run_simpl).

Ltac spec_reloadPlugins logger :=
  unfold reloadPlugins;
  match goal with
  | |- context [ default subsystemLogger (options_logger ?o) ] =>
      set (logger := default subsystemLogger (options_logger o)) in *
  end;
  repeat spec_step.

Lemma Math_round_ms_nonneg (delta : Z) : (0 <= delta)%Z -> (0 <= Math_round_ms delta)%Z.
Proof. intros Hdelta. unfold Math_round_ms. apply Z.div_pos; lia. Qed.

(** C2. On the collaborators of the design document, and with a logger
    whose [info] method returns, [reloadPlugins] returns [ok: true] with a
    registry, a [pluginCount], a [hookCount] and a [durationMs] that is not
    negative, for every workspace directory, configuration and world. For a
    workspace directory that does not exist, Discovery returned the empty
    sequence. *)
Theorem reloadPlugins_succeeds (options : ReloadPluginsOptions) (w : World) :
  (forall message,
      logger_info (default subsystemLogger (options_logger options)) message = Returned tt) ->
  exists registry pluginCount hookCount durationMs w',
    reloadPlugins SpecHost.host options w
    = (Returned {| result_ok := true; result_registry := Some registry;
                   result_pluginCount := Some pluginCount;
                   result_hookCount := Some hookCount;
                   result_error := None; result_durationMs := durationMs |}, w')
    /\ (0 <= durationMs)%Z
    /\ (disk (env w) !! options_workspaceDir options = None ->
        discovered (eventsSince w w') = {| discovery_candidates := [] |}).
Proof.
  intros Hlogger. spec_reloadPlugins logger.
  all: logger_returns Hlogger.
  do 5 eexists. split; [reflexivity|]. split.
  - apply Math_round_ms_nonneg. lia.
  - intros Habsent. run_events.
    unfold SpecHost.discover, SpecHost.found, SpecHost.pluginRoots.
    cbn [discover_workspaceDir discover_extraPaths default].
    by rewrite Habsent.
Qed.

Lemma reloadPlugins_succeeds_witness :
  exists registry pluginCount hookCount durationMs w',
    reloadPlugins SpecHost.host Sample.optionsNowhere Sample.freshWorld
    = (Returned {| result_ok := true; result_registry := Some registry;
                   result_pluginCount := Some pluginCount;
                   result_hookCount := Some hookCount;
                   result_error := None; result_durationMs := durationMs |}, w')
    /\ (0 <= durationMs)%Z
    /\ discovered (eventsSince Sample.freshWorld w') = {| discovery_candidates := [] |}.
Proof.
  destruct (reloadPlugins_succeeds Sample.optionsNowhere Sample.freshWorld)
    as (registry & pluginCount & hookCount & durationMs & w' & Hrun & Hduration & Hnowhere).
  - intros message. reflexivity.
  - exists registry, pluginCount, hookCount, durationMs, w'.
    split; [exact Hrun|]. split; [exact Hduration|].
    apply Hnowhere. vm_compute. reflexivity.
Defined.

(** C3. On the collaborators of the design document, after a successful
    [reloadPlugins] call the Active Registry Singleton holds the registry of
    the result, which is not the object it held before the call, and the
    singleton was written once during the call. *)
Theorem reloadPlugins_publishes (options : ReloadPluginsOptions) (w w' : World)
    (result : ReloadResult) :
  SpecHost.allocated (env w) ->
  reloadPlugins SpecHost.host options w = (Returned result, w') ->
  result_ok result = true ->
  exists registry,
    result_registry result = Some registry
    /\ activeRegistry (env w') = Some registry
    /\ (forall previous, activeRegistry (env w) = Some previous ->
                         registry_ref previous <> registry_ref registry)
    /\ activeWrites (env w') = S (activeWrites (env w)).
Proof.
  intros [Hactive _]. spec_reloadPlugins logger.
  all: intros [= <- <-]; run_simpl; try discriminate.
  intros _. eexists. split; [reflexivity|]. cbn. split; [reflexivity|].
  split; [|reflexivity].
  intros previous Hprevious. apply Hactive in Hprevious. lia.
Qed.

Lemma runningEnv_allocated : SpecHost.allocated Sample.runningEnv.
Proof.
  split.
  - intros r [= <-]. cbn. lia.
  - intros key r Hkey. cbn in Hkey. by rewrite lookup_empty in Hkey.
Qed.

Lemma reloadPlugins_publishes_witness :
  let run := reloadPlugins SpecHost.host Sample.options Sample.runningWorld in
  exists registry,
    registry_ref registry = 1
    /\ activeRegistry (env run.2) = Some registry
    /\ (forall previous, activeRegistry (env Sample.runningWorld) = Some previous ->
                         registry_ref previous <> registry_ref registry)
    /\ activeWrites (env run.2) = 2.
Proof.
  intros run.
  destruct (reloadPlugins_publishes Sample.options Sample.runningWorld run.2
              {| result_ok := true;
                 result_registry :=
                   Some {| registry_ref := 1;
                           registry_plugins := [SpecHost.pluginOf Sample.demoPlugin];
                           registry_hooks := SpecHost.hooksOf Sample.demoPlugin;
                           registry_gatewayHandlers := [] |};
                 result_pluginCount := Some 1; result_hookCount := Some 1;
                 result_error := None; result_durationMs := 2 |})
    as (registry & Hresult & Hactive & Hfresh & Hwrites).
  - apply runningEnv_allocated.
  - vm_compute. reflexivity.
  - reflexivity.
  - exists registry. injection Hresult as <-. repeat split; assumption.
Defined.

(** ** Fresh references *)

Ltac solve_allocated Hactive Hcache :=
  split;
  [ intros ? Hr; cbn in Hr;
    first [ injection Hr as <-; cbn; lia | apply Hactive in Hr; cbn; lia ]
  | intros ? ? Hr; cbn in Hr;
    first [ by rewrite lookup_empty in Hr | apply Hcache in Hr; cbn; lia ] ].

Ltac solve_keepsReferences Hactive Hcache :=
  split; [solve_allocated Hactive Hcache|];
  split; [cbn; lia|];
  intros ? Hr; cbn in Hr;
  first [ discriminate Hr
        | injection Hr as <-; cbn; (split; [lia|intros _; lia]) ].

Lemma load_keepsReferences (options : PluginLoadOptions) (e : Env) :
  SpecHost.allocated e ->
  keepsReferences e
    (match (SpecHost.load options e).1 with
     | Returned registry => Returned (Some registry)
     | Thrown err => Thrown err
     end)
    (SpecHost.load options e).2 (negb (SpecHost.cacheEnabled options)).
Proof.
  intros [Hactive Hcache]. unfold SpecHost.load, SpecHost.loadFresh.
  destruct (SpecHost.cacheEnabled options) eqn:Hon.
  - destruct (registryCache e !! _) as [cached|] eqn:Hcached; cbn.
    + split; [by split|]. split; [lia|].
      intros registry [= <-]. split; [by eapply Hcache|done].
    + split.
      * split.
        -- intros r [= <-]. cbn. lia.
        -- intros key r Hr. cbn in Hr.
           apply lookup_insert_Some in Hr as [[_ <-]|[_ Hr]]; cbn; [lia|].
           apply Hcache in Hr. lia.
      * split; [cbn; lia|]. intros registry [= <-]. cbn. split; [lia|done].
  - cbn. split.
    + split.
      * intros r [= <-]. cbn. lia.
      * intros key r Hr. cbn in Hr. apply Hcache in Hr. cbn. lia.
    + split; [cbn; lia|]. intros registry [= <-]. cbn. split; [lia|intros _; lia].
Qed.

Lemma reloadPlugins_keepsReferences (options : ReloadPluginsOptions) (w : World) :
  SpecHost.allocated (env w) ->
  let run := serve (AskReloadPlugins options) w in
  keepsReferences (env w) run.1 (env run.2) true.
Proof.
  intros [Hactive Hcache]. unfold serve. rewrite run_bind.
  spec_reloadPlugins logger.
  all: solve_keepsReferences Hactive Hcache.
Qed.

Lemma reloadOpenClawPlugins_keepsReferences (params : ReloadParams) (w : World) :
  SpecHost.allocated (env w) ->
  let run := serve (AskReloadOpenClawPlugins params) w in
  keepsReferences (env w) run.1 (env run.2) true.
Proof.
  intros [Hactive Hcache]. unfold serve, reloadOpenClawPlugins.
  destruct (params_logger params) as [logger|].
  all: rewrite run_bind; repeat spec_step; unfold withRequireCache; run_simpl.
  all: repeat spec_step.
  all: solve_keepsReferences Hactive Hcache.
Qed.

Lemma serve_keepsReferences (req : Request) (w : World) :
  SpecHost.allocated (env w) ->
  keepsReferences (env w) (serve req w).1 (env (serve req w).2) (forcesFresh req).
Proof.
  intros Hallocated. destruct req as [options|options|params|].
  - pose proof (load_keepsReferences options (env w) Hallocated) as Hload.
    unfold serve. rewrite run_bind, run_invoke. cbn [SpecHost.host forcesFresh].
    destruct (SpecHost.load options (env w)) as [[registry|err] after]; exact Hload.
  - by apply reloadPlugins_keepsReferences.
  - by apply reloadOpenClawPlugins_keepsReferences.
  - destruct Hallocated as [Hactive Hcache]. unfold serve.
    repeat spec_step. solve_keepsReferences Hactive Hcache.
Qed.

(** The registries handed back during a session are allocated at its end. *)
Lemma session_keepsReferences (reqs : list Request) (w : World) :
  SpecHost.allocated (env w) ->
  SpecHost.allocated (env (session reqs w).2)
  /\ nextRef (env w) <= nextRef (env (session reqs w).2)
  /\ forall prior, prior ∈ (session reqs w).1 ->
       registry_ref prior < nextRef (env (session reqs w).2).
Proof.
  revert w. induction reqs as [|req reqs IH]; intros w Hallocated.
  - split; [done|]. split; [done|]. intros prior Hprior. by apply elem_of_nil in Hprior.
  - destruct (serve_keepsReferences req w Hallocated) as (Hafter & Hle & Hhanded).
    destruct (IH _ Hafter) as (Hend & Hle' & Hrest).
    cbn [session fst snd]. split; [done|]. split; [lia|].
    intros prior [Hprior|Hprior]%elem_of_app; [|by apply Hrest].
    destruct (serve req w).1 as [[registry|]|err]; cbn in Hprior;
      try by apply elem_of_nil in Hprior.
    apply list_elem_of_singleton in Hprior as ->.
    destruct (Hhanded registry eq_refl) as [Hlt _]. lia.
Qed.

(** C8. On the collaborators of the design document, whatever loads, reloads
    and cache clearings a process has served before: a load with
    [cache: false], a [reloadPlugins] or a [reloadOpenClawPlugins] that hands
    back a registry hands back an object that no earlier request handed back
    and that the singleton did not hold at the start. *)
Theorem fresh_reference (w : World) (earlier : list Request) (req : Request)
    (registry : PluginRegistry) :
  SpecHost.allocated (env w) ->
  forcesFresh req = true ->
  (serve req (session earlier w).2).1 = Returned (Some registry) ->
  (forall prior, prior ∈ (session earlier w).1 ->
                 registry_ref prior <> registry_ref registry)
  /\ (forall held, activeRegistry (env w) = Some held ->
                   registry_ref held <> registry_ref registry).
Proof.
  intros Hallocated Hfresh Hserved.
  destruct (session_keepsReferences earlier w Hallocated) as (Hend & Hle & Hprior).
  destruct (serve_keepsReferences req _ Hend) as (_ & _ & Hhanded).
  destruct (Hhanded registry Hserved) as [_ Hnew]. specialize (Hnew Hfresh).
  split.
  - intros prior Hin. apply Hprior in Hin. lia.
  - intros held Hheld. destruct Hallocated as [Hactive _]. apply Hactive in Hheld. lia.
Qed.

Lemma fresh_reference_witness :
  map registry_ref (session Sample.earlier Sample.runningWorld).1 = [1; 1; 2; 3]
  /\ exists registry,
       registry_ref registry = 4
       /\ (serve (AskReloadOpenClawPlugins Sample.params)
             (session Sample.earlier Sample.runningWorld).2).1 = Returned (Some registry)
       /\ (forall prior, prior ∈ (session Sample.earlier Sample.runningWorld).1 ->
                         registry_ref prior <> registry_ref registry)
       /\ (forall held, activeRegistry (env Sample.runningWorld) = Some held ->
                        registry_ref held <> registry_ref registry).
Proof.
  split; [vm_compute; reflexivity|].
  exists {| registry_ref := 4;
            registry_plugins := [SpecHost.pluginOf Sample.demoPlugin];
            registry_hooks := SpecHost.hooksOf Sample.demoPlugin;
            registry_gatewayHandlers := [] |}.
  split; [reflexivity|]. split; [vm_compute; reflexivity|].
  apply (fresh_reference Sample.runningWorld Sample.earlier
           (AskReloadOpenClawPlugins Sample.params)).
  - apply runningEnv_allocated.
  - reflexivity.
  - vm_compute. reflexivity.
Defined.

(** ** The scenarios of the design document *)

(** Scenario A: a workspace with one plugin that loads and one that fails to
    import. The reload succeeds and counts the loaded one. *)
Example reload_counts_loaded_plugins_only :
  exists result,
    (reloadPlugins SpecHost.host Sample.options Sample.freshWorld).1 = Returned result
    /\ result_ok result = true
    /\ result_pluginCount result = Some 1
    /\ result_hookCount result = Some 1
    /\ result_durationMs result = 4%Z
    /\ (map plugin_status ∘ registry_plugins <$> result_registry result)
       = Some [loaded; error].
Proof. eexists. split; [vm_compute; reflexivity|]. repeat split. Qed.

(** Two loads with the cache on hand back the same object; after the caches
    are cleared, a load with the cache on hands back another one
    (scenario B). *)
Example cached_loads_share_the_registry :
  registry_ref <$> (session [AskLoad Sample.loadCached; AskLoad Sample.loadCached;
                             AskClearPluginCaches; AskLoad Sample.loadCached]
                      Sample.freshWorld).1
  = [0; 0; 1].
Proof. vm_compute. reflexivity. Qed.

(** * Further properties of [reloader.ts] *)

(** ** The module cache buster *)

Lemma requested_app (resolve : string -> string) (sources1 sources2 : list string) k :
  requested resolve (sources1 ++ sources2) k
  <-> requested resolve sources1 k \/ requested resolve sources2 k.
Proof. unfold requested. by rewrite fmap_app, elem_of_app. Qed.

(** X1. Purging two lists of sources one after the other has the effect of
    purging their concatenation: the same world, and the two numbers
    returned add up to the one number. *)
Theorem clearPluginModuleCache_app (sources1 sources2 : list string) (w : World) :
  (cleared1 <- clearPluginModuleCache sources1 ;;
   cleared2 <- clearPluginModuleCache sources2 ;;
   ret (cleared1 + cleared2)) w
  = clearPluginModuleCache (sources1 ++ sources2) w.
Proof.
  rewrite run_bind, (clearPluginModuleCache_run sources1). run_simpl.
  rewrite run_bind, (clearPluginModuleCache_run sources2). run_simpl.
  rewrite run_ret, (clearPluginModuleCache_run (sources1 ++ sources2)).
  unfold withRequireCache. cbn.
  set (resolve := Path.resolve (cwd (env w))). set (cache := requireCache (env w)).
  assert (filter (fun kv => ~ requested resolve sources2 kv.1)
            (filter (fun kv => ~ requested resolve sources1 kv.1) cache)
          = filter (fun kv => ~ requested resolve (sources1 ++ sources2) kv.1) cache)
    as Hfilter.
  { rewrite map_filter_filter. apply map_filter_ext. intros k x _. cbn.
    rewrite requested_app. tauto. }
  rewrite Hfilter. f_equal. f_equal.
  pose proof (purge_size resolve sources1 cache) as H1.
  pose proof (purge_size resolve sources2
                (filter (fun kv => ~ requested resolve sources1 kv.1) cache)) as H2.
  pose proof (purge_size resolve (sources1 ++ sources2) cache) as H12.
  rewrite purge_cache in H1, H2, H12. rewrite Hfilter in H2. lia.
Qed.

(** X2. The purge depends on the sources only through the set of files they
    name: two lists with the same canonical forms, whatever their order,
    repetitions and spellings, give the same world and the same number. *)
Theorem clearPluginModuleCache_same_files (sources1 sources2 : list string) (w : World) :
  (forall file, file ∈ Path.resolve (cwd (env w)) <$> sources1
                <-> file ∈ Path.resolve (cwd (env w)) <$> sources2) ->
  clearPluginModuleCache sources1 w = clearPluginModuleCache sources2 w.
Proof.
  intros Hsame. rewrite !clearPluginModuleCache_run, !purge_count.
  assert (forall k, requested (Path.resolve (cwd (env w))) sources1 k
                    <-> requested (Path.resolve (cwd (env w))) sources2 k) as Hreq.
  { intros k. apply Hsame. }
  f_equal.
  - f_equal. f_equal. by apply list_filter_iff.
  - f_equal. apply map_filter_ext. intros k x _. cbn. by rewrite Hreq.
Qed.

Lemma clearPluginModuleCache_same_files_witness :
  clearPluginModuleCache ["a.js"; "/ws/a.js"; "./lib/../a.js"] Sample.cachedWorld
  = clearPluginModuleCache ["/ws/a.js"] Sample.cachedWorld.
Proof.
  apply clearPluginModuleCache_same_files. intros file.
  change (Path.resolve (cwd (env Sample.cachedWorld)) <$> ["a.js"; "/ws/a.js"; "./lib/../a.js"])
    with ["/ws/a.js"; "/ws/a.js"; "/ws/a.js"].
  change (Path.resolve (cwd (env Sample.cachedWorld)) <$> ["/ws/a.js"]) with ["/ws/a.js"].
  rewrite !elem_of_cons. tauto.
Defined.

(** X3. [clearPluginModuleCache] returns 0 exactly when it leaves the world
    as it found it. *)
Theorem clearPluginModuleCache_zero_iff_unchanged (sources : list string) (w : World) :
  (clearPluginModuleCache sources w).1 = Returned 0
  <-> (clearPluginModuleCache sources w).2 = w.
Proof.
  rewrite clearPluginModuleCache_run. cbn [fst snd].
  set (resolve := Path.resolve (cwd (env w))). set (cache := requireCache (env w)).
  pose proof (purge_size resolve sources cache) as Hsize. rewrite purge_cache in Hsize.
  split.
  - intros [= Hzero].
    assert (filter (fun kv => ~ requested resolve sources kv.1) cache = cache) as ->.
    { apply map_subseteq_size_eq; [apply map_filter_subseteq|lia]. }
    apply withRequireCache_same.
  - intros Hsame. f_equal.
    assert (filter (fun kv => ~ requested resolve sources kv.1) cache = cache) as Hcache.
    { apply (f_equal (fun w0 => requireCache (env w0))) in Hsame. exact Hsame. }
    rewrite Hcache in Hsize. lia.
Qed.

(** ** [reloadOpenClawPlugins] *)

Ltac more_events :=
  rewrite <- ?app_assoc; rewrite ?eventsSince_app;
  cbn [app hostCalls logLines omap head discovered discoveryOf loadReturned chained
       thrownBy default mbind option_bind list_omap].

(** X4. When its three calls return, [reloadOpenClawPlugins] returns the
    registry of the load; the loader-cache clearing starts in the environment
    [getActivePluginRegistry] left, less the purged entries; the clock is not
    read; and the one line written, if a logger was passed, reports the number
    of plugins of the new registry and the number of import-cache entries
    that were removed. *)
Theorem reloadOpenClawPlugins_success (h : Host) (params : ReloadParams) (w : World)
    (active : option PluginRegistry) (e1 e2 e3 : Env) (registry : PluginRegistry) :
  let resolve := Path.resolve (cwd e1) in
  let kept :=
    filter (fun kv => ~ requested resolve (recordedSources active) kv.1) (requireCache e1) in
  let cleared := size (requireCache e1) - size kept in
  h _ GetActivePluginRegistry (env w) = (Returned active, e1) ->
  h _ ClearPluginLoaderCache (setRequireCache kept e1) = (Returned tt, e2) ->
  h _ (LoadOpenClawPlugins (forcedLoadOptions params)) e2 = (Returned registry, e3) ->
  (forall logger message,
      params_logger params = Some logger -> logger_info logger message = Returned tt) ->
  reloadOpenClawPlugins h params w
  = (Returned registry,
     {| env := e3; now_us := now_us w; pending := pending w;
        trace :=
          trace w
          ++ [ Invoked GetActivePluginRegistry (env w) (Returned active) e1;
               Invoked ClearPluginLoaderCache (setRequireCache kept e1) (Returned tt) e2;
               Invoked (LoadOpenClawPlugins (forcedLoadOptions params)) e2
                 (Returned registry) e3 ]
          ++ match params_logger params with
             | Some _ =>
                 [ Logged Info (hotReloadLine (length (registry_plugins registry)) cleared) ]
             | None => []
             end |}).
Proof.
  intros resolve kept cleared Hactive Hclear Hload Hlogger.
  assert ((purgeModuleCache resolve (recordedSources active) (requireCache e1)).2 = cleared)
    as Hcleared.
  { pose proof (purge_size resolve (recordedSources active) (requireCache e1)) as Hsize.
    rewrite purge_cache in Hsize. fold kept in Hsize. unfold cleared. lia. }
  unfold reloadOpenClawPlugins.
  rewrite run_bind, run_invoke, Hactive. run_simpl.
  rewrite run_bind, clearPluginModuleCache_run. run_simpl.
  fold (recordedSources active). fold resolve kept. rewrite Hcleared.
  unfold withRequireCache. run_simpl.
  rewrite run_bind, run_invoke. run_simpl. rewrite Hclear. run_simpl.
  rewrite run_bind, run_invoke. run_simpl.
  fold (forcedLoadOptions params). rewrite Hload. run_simpl.
  destruct (params_logger params) as [logger|] eqn:Hsome.
  - rewrite run_bind, run_logLine, (Hlogger logger _ eq_refl). run_simpl.
    rewrite run_ret, <- !app_assoc. reflexivity.
  - rewrite run_bind, run_ret. run_simpl.
    rewrite run_ret, <- !app_assoc. reflexivity.
Qed.

Lemma reloadOpenClawPlugins_success_witness :
  exists w',
    reloadOpenClawPlugins (mockHost MoreSamples.mixedRegistry) Sample.params Sample.staleWorld
    = (Returned MoreSamples.mixedRegistry, w')
    /\ logLines (trace w')
       = [(Info, "[plugins] hot-reload complete (plugins=2, moduleCacheCleared=1)")]
    /\ requireCache (env w') = ∅.
Proof.
  eexists. split.
  - apply (reloadOpenClawPlugins_success (mockHost MoreSamples.mixedRegistry)
             Sample.params Sample.staleWorld (Some Sample.oldRegistry) Sample.staleEnv).
    + reflexivity.
    + reflexivity.
    + reflexivity.
    + intros logger message [= <-]. reflexivity.
  - split; vm_compute; reflexivity.
Defined.

(** X5. Whatever the imported modules do, [reloadOpenClawPlugins] calls
    [getActivePluginRegistry], [clearPluginLoaderCache] and the load with
    [cache: false], in this order and each only when the one before
    returned: a call that throws is the last thing the run does, and what it
    threw is what the run throws. It calls nothing else, and it never reads
    the clock. It writes at most one line, and only after all three calls
    returned. A registry it returns is the one the load returned, in the
    environment the load left. *)
Theorem reloadOpenClawPlugins_calls (h : Host) (params : ReloadParams) (w : World) :
  let run := reloadOpenClawPlugins h params w in
  let evs := eventsSince w run.2 in
  hostCalls evs `prefix_of`
    [ Called GetActivePluginRegistry; Called ClearPluginLoaderCache;
      Called (LoadOpenClawPlugins (forcedLoadOptions params)) ]
  /\ Forall (fun ev => thrownBy ev = None) (removelast evs)
  /\ (forall ev err, last evs = Some ev -> thrownBy ev = Some err -> run.1 = Thrown err)
  /\ (forall registry,
        run.1 = Returned registry -> omap loadReturned evs = [(registry, env run.2)])
  /\ now_us run.2 = now_us w
  /\ pending run.2 = pending w
  /\ (logLines evs = []
      \/ (is_Some (params_logger params)
          /\ length (logLines evs) = 1
          /\ length (hostCalls evs) = 3
          /\ omap thrownBy evs = [])).
Proof.
  unfold reloadOpenClawPlugins, forcedLoadOptions.
  destruct (params_logger params) as [logger|].
  all: run_step.
  all: try (rewrite run_bind, clearPluginModuleCache_run; unfold withRequireCache;
            run_simpl; run_step).
  all: try (run_step; repeat run_step).
  all: more_events; cbn [removelast last].
  all: split; [by eexists|].
  all: split; [by repeat constructor|].
  all: split; [intros ? ? [= <-]; cbn [thrownBy]; congruence|].
  all: split; [intros ?; congruence|].
  all: split; [reflexivity|].
  all: split; [reflexivity|].
  all: first [by left | right; repeat split; by eexists].
Qed.

(** X6. When the imported modules leave the import cache alone,
    [reloadOpenClawPlugins] only removes entries from it: every entry of the
    cache after the call is an entry of the cache before the call, also when
    the call throws. *)
Theorem reloadOpenClawPlugins_cache_shrinks (h : Host) (params : ReloadParams) (w : World) :
  (forall X (call : Call X) e, requireCache (h X call e).2 = requireCache e) ->
  requireCache (env (reloadOpenClawPlugins h params w).2) ⊆ requireCache (env w).
Proof.
  intros Hframe. unfold reloadOpenClawPlugins.
  rewrite run_bind, run_invoke.
  pose proof (Hframe _ GetActivePluginRegistry (env w)) as H1.
  destruct (h _ GetActivePluginRegistry (env w)) as [[active|err] e1]; run_simpl;
    cbn [snd] in H1; [|by rewrite H1].
  rewrite run_bind, clearPluginModuleCache_run. unfold withRequireCache. run_simpl.
  set (purged := setRequireCache _ e1).
  assert (requireCache purged ⊆ requireCache (env w)) as Hkept.
  { subst purged. cbn. rewrite <- H1. apply map_filter_subseteq. }
  clearbody purged.
  rewrite run_bind, run_invoke. run_simpl.
  pose proof (Hframe _ ClearPluginLoaderCache purged) as H2.
  destruct (h _ ClearPluginLoaderCache purged) as [[[]|err] e2]; run_simpl;
    cbn [snd] in H2; [|by rewrite H2].
  rewrite run_bind, run_invoke. run_simpl.
  set (loadOptions := Build_PluginLoadOptions _ _ _ _ _).
  pose proof (Hframe _ (LoadOpenClawPlugins loadOptions) e2) as H3.
  destruct (h _ (LoadOpenClawPlugins loadOptions) e2) as [[registry|err] e3]; run_simpl;
    cbn [snd] in H3; [|by rewrite H3, H2].
  destruct (params_logger params) as [logger|]; repeat run_step.
  all: by rewrite H3, H2.
Qed.

Lemma reloadOpenClawPlugins_cache_shrinks_witness :
  requireCache
    (env (reloadOpenClawPlugins
            (withFailingLoad (JsError "loader crashed") (mockHost Sample.oldRegistry))
            Sample.params Sample.staleWorld).2)
  ⊆ requireCache (env Sample.staleWorld).
Proof.
  apply reloadOpenClawPlugins_cache_shrinks.
  intros X call e. destruct call; reflexivity.
Defined.

(** ** [reloadPlugins] *)

(** X7. A result of [reloadPlugins] has one of two shapes: [ok: true] with a
    registry, a [pluginCount] and a [hookCount] and no [error]; or
    [ok: false] with an [error] and none of the three. *)
Theorem reloadPlugins_result_shape (h : Host) (options : ReloadPluginsOptions)
    (w w' : World) (result : ReloadResult) :
  reloadPlugins h options w = (Returned result, w') ->
  (result_ok result = true
   /\ is_Some (result_registry result)
   /\ is_Some (result_pluginCount result)
   /\ is_Some (result_hookCount result)
   /\ result_error result = None)
  \/ (result_ok result = false
      /\ result_registry result = None
      /\ result_pluginCount result = None
      /\ result_hookCount result = None
      /\ is_Some (result_error result)).
Proof.
  run_reloadPlugins logger.
  all: intros [= <- <-]; run_simpl.
  all: first [ left; repeat split; by eexists | right; repeat split; by eexists ].
Qed.

Lemma reloadPlugins_result_shape_witness :
  exists result w',
    reloadPlugins (withFailingLoad (JsOther "42") (mockHost MoreSamples.mixedRegistry))
      Sample.options MoreSamples.idleWorld = (Returned result, w')
    /\ result_ok result = false
    /\ result_registry result = None
    /\ result_error result = Some "42".
Proof.
  eexists _, _. split; [vm_compute; reflexivity|].
  destruct (reloadPlugins_result_shape
              (withFailingLoad (JsOther "42") (mockHost MoreSamples.mixedRegistry))
              Sample.options MoreSamples.idleWorld _ _ ltac:(vm_compute; reflexivity))
    as [(Hok & _)|(Hok & Hregistry & _ & _ & _)].
  - discriminate Hok.
  - split; [exact Hok|]. split; [exact Hregistry|reflexivity].
Defined.

(** X8. Whenever [reloadPlugins] returns, on success and on failure alike,
    [durationMs] is not negative, and it is 0 when the clock did not move
    between its first and its last reading. The clock is read twice, or three
    times: a third reading, taken by the handler after the try block had
    taken its second, comes only with a failure. *)
Theorem reloadPlugins_clock_readings (h : Host) (options : ReloadPluginsOptions)
    (w w' : World) (result : ReloadResult) :
  let start := (now_us w + Z.of_N (hd 0%N (pending w)))%Z in
  let second := Z.of_N (hd 0%N (tail (pending w))) in
  let third := Z.of_N (hd 0%N (tail (tail (pending w)))) in
  reloadPlugins h options w = (Returned result, w') ->
  (0 <= result_durationMs result)%Z
  /\ (now_us w' = start -> result_durationMs result = 0%Z)
  /\ ((now_us w' = (start + second)%Z /\ pending w' = tail (tail (pending w)))
      \/ (result_ok result = false
          /\ now_us w' = (start + second + third)%Z
          /\ pending w' = tail (tail (tail (pending w))))).
Proof.
  intros start second third. run_reloadPlugins logger.
  all: intros [= <- <-]; run_simpl.
  all: fold start; fold second; fold third.
  all: split; [apply Math_round_ms_nonneg; subst start second third; lia|].
  all: split; [intros ->; by rewrite Z.sub_diag|].
  all: first [ left; split; reflexivity | right; repeat split; reflexivity ].
Qed.

Lemma reloadPlugins_clock_readings_witness :
  exists result w',
    reloadPlugins (mockHost MoreSamples.mixedRegistry) Sample.options MoreSamples.idleWorld
    = (Returned result, w')
    /\ (0 <= result_durationMs result)%Z
    /\ pending w' = [7%N].
Proof.
  eexists _, _. split; [vm_compute; reflexivity|].
  destruct (reloadPlugins_clock_readings (mockHost MoreSamples.mixedRegistry)
              Sample.options MoreSamples.idleWorld _ _ ltac:(vm_compute; reflexivity))
    as (Hnonneg & _ & [[_ Hpending]|(Hok & _)]).
  - split; [exact Hnonneg | exact Hpending].
  - discriminate Hok.
Defined.

(** X9. The lines [reloadPlugins] writes. The first line is always the
    starting line. A success writes three [info] lines, the last one with the
    duration and the two counts of the result, and no [error] line. A
    failure ends with one [error] line that carries the duration and the
    [error] string of the result; every line before it is an [info] line. *)
Theorem reloadPlugins_log_lines (h : Host) (options : ReloadPluginsOptions)
    (w w' : World) (result : ReloadResult) :
  reloadPlugins h options w = (Returned result, w') ->
  let lines := logLines (eventsSince w w') in
  head lines = Some (Info, "[plugin-reload] Starting plugin hot-reload…")
  /\ match result_error result with
     | None =>
         exists pluginCount hookCount,
           result_pluginCount result = Some pluginCount
           /\ result_hookCount result = Some hookCount
           /\ lines
              = [ (Info, "[plugin-reload] Starting plugin hot-reload…");
                  (Info, "[plugin-reload] Caches cleared, re-loading plugins…");
                  (Info, completeLine (result_durationMs result) pluginCount hookCount) ]
     | Some message =>
         last lines = Some (Error, failedLine (result_durationMs result) message)
         /\ Forall (fun line => line.1 = Info) (removelast lines)
     end.
Proof.
  run_reloadPlugins logger.
  all: intros [= <- <-]; run_simpl; more_events.
  all: split; [reflexivity|].
  all: first [ by do 2 eexists | split; [reflexivity|]; cbn; by repeat constructor ].
Qed.

Lemma reloadPlugins_log_lines_witness :
  logLines (eventsSince MoreSamples.idleWorld
              (reloadPlugins (mockHost MoreSamples.mixedRegistry) Sample.options
                 MoreSamples.idleWorld).2)
  = [ (Info, "[plugin-reload] Starting plugin hot-reload…");
      (Info, "[plugin-reload] Caches cleared, re-loading plugins…");
      (Info, "[plugin-reload] Reload complete in 12ms — 1 plugin(s), 1 hook(s)") ].
Proof.
  destruct (reloadPlugins_log_lines (mockHost MoreSamples.mixedRegistry) Sample.options
              MoreSamples.idleWorld
              (reloadPlugins (mockHost MoreSamples.mixedRegistry) Sample.options
                 MoreSamples.idleWorld).2
              {| result_ok := true; result_registry := Some MoreSamples.mixedRegistry;
                 result_pluginCount := Some 1; result_hookCount := Some 1;
                 result_error := None; result_durationMs := 12 |}
              ltac:(vm_compute; reflexivity))
    as (_ & pluginCount & hookCount & [= <-] & [= <-] & Hlines).
  exact Hlines.
Defined.






(** Any property of environments that every call into the imported modules
    keeps is kept along a chain of calls. *)
Lemma chained_invariant (P : Env -> Prop) (h : Host) (evs : list Event) (e e' : Env) :
  (forall X (call : Call X) e0, P e0 -> P (h X call e0).2) ->
  chained h e evs e' -> P e -> P e'.
Proof.
  intros Hstep. revert e. induction evs as [|ev evs IH]; intros e Hchain He.
  - cbn in Hchain. by subst.
  - destruct ev as [X call before outcome after|level message]; cbn in Hchain.
    + destruct Hchain as (-> & Hcall & Hrest). apply (IH after Hrest).
      specialize (Hstep X call e He). by rewrite Hcall in Hstep.
    + by apply (IH e).
Qed.

(** X12. [reloadPlugins] changes the environment through the imported modules
    only: a property of the environment that every call into them keeps
    holds after the reload if it held before, whether the reload succeeds,
    fails or throws. *)
Theorem reloadPlugins_frame (P : Env -> Prop) (h : Host) (options : ReloadPluginsOptions)
    (w : World) :
  (forall X (call : Call X) e, P e -> P (h X call e).2) ->
  P (env w) ->
  P (env (reloadPlugins h options w).2).
Proof.
  intros Hstep Hbefore.
  destruct (reloadPlugins_run h options w) as (_ & _ & Hchained & _).
  by eapply chained_invariant.
Qed.

Lemma reloadPlugins_frame_witness :
  requireCache
    (env (reloadPlugins (withFailingLoad (JsError "loader crashed")
                           (mockHost MoreSamples.mixedRegistry))
            Sample.options Sample.cachedWorld).2)
  = requireCache (env Sample.cachedWorld).
Proof.
  apply (reloadPlugins_frame
           (fun e => requireCache e = requireCache (env Sample.cachedWorld))).
  - intros X call e He. destruct call; exact He.
  - reflexivity.
Defined.

Lemma length_filter_all {A} (P : A -> Prop) `{!forall x, Decision (P x)} (l : list A) :
  length (filter P l) = length l <-> Forall P l.
Proof.
  induction l as [|x l IH]; [by split; [constructor|]|].
  pose proof (length_filter P l) as Hle.
  destruct (decide (P x)) as [Hx|Hx].
  - rewrite filter_cons_True by done. cbn. rewrite Forall_cons. split.
    + intros [= Hlen]. split; [done|]. by apply IH.
    + intros [_ Hall]. f_equal. by apply IH.
  - rewrite filter_cons_False by done. cbn. rewrite Forall_cons. split.
    + intros Hlen. lia.
    + intros [Hx' _]. done.
Qed.

(** X13. On a success, [pluginCount] is at most the number of plugins of the
    returned registry, and equal to it exactly when every plugin of the
    registry has status [loaded]: a plugin recorded with [error] or
    [disabled] shows as a lower count, never as a failure of the reload. *)
Theorem reloadPlugins_pluginCount_bound (h : Host) (options : ReloadPluginsOptions)
    (w w' : World) (result : ReloadResult) (registry : PluginRegistry) (pluginCount : nat) :
  reloadPlugins h options w = (Returned result, w') ->
  result_registry result = Some registry ->
  result_pluginCount result = Some pluginCount ->
  result_ok result = true
  /\ pluginCount <= length (registry_plugins registry)
  /\ (pluginCount = length (registry_plugins registry)
      <-> Forall (fun p => plugin_status p = loaded) (registry_plugins registry)).
Proof.
  run_reloadPlugins logger.
  all: intros [= <- <-]; run_simpl; intros [= <-]; intros [= <-].
  rewrite isLoaded_filter. split; [reflexivity|]. split.
  - apply length_filter.
  - apply length_filter_all.
Qed.

Lemma reloadPlugins_pluginCount_bound_witness :
  exists result w',
    reloadPlugins (mockHost MoreSamples.mixedRegistry) Sample.options MoreSamples.idleWorld
    = (Returned result, w')
    /\ result_pluginCount result = Some 1
    /\ 1 <= length (registry_plugins MoreSamples.mixedRegistry)
    /\ ~ Forall (fun p => plugin_status p = loaded)
           (registry_plugins MoreSamples.mixedRegistry).
Proof.
  eexists _, _. split; [vm_compute; reflexivity|]. split; [reflexivity|].
  destruct (reloadPlugins_pluginCount_bound (mockHost MoreSamples.mixedRegistry)
              Sample.options MoreSamples.idleWorld _ _ MoreSamples.mixedRegistry 1
              ltac:(vm_compute; reflexivity) eq_refl eq_refl)
    as (_ & Hle & Hall).
  split; [exact Hle|]. intros Hloaded. apply Hall in Hloaded. discriminate Hloaded.
Defined.




(** X15. The number [clearPluginModuleCache] returns is at most the number
    of entries of the import cache; when the cache holds one entry per file,
    it is also at most the number of sources passed, whatever their
    repetitions and whether or not their files are cached. *)
Theorem clearPluginModuleCache_count_bound (sources : list string) (w w' : World)
    (cleared : nat) :
  clearPluginModuleCache sources w = (Returned cleared, w') ->
  cleared <= size (requireCache (env w))
  /\ (NoDup (Path.resolve (cwd (env w)) <$> Object_keys (requireCache (env w))) ->
      cleared <= length sources).
Proof.
  rewrite clearPluginModuleCache_run. intros [= <- _].
  set (resolve := Path.resolve (cwd (env w))). set (cache := requireCache (env w)).
  split.
  - pose proof (purge_size resolve sources cache). lia.
  - intros Hkeys. rewrite purge_count.
    rewrite <- (length_fmap resolve (filter _ _)), <- (length_fmap resolve sources).
    apply submseteq_length, NoDup_submseteq.
    + apply (NoDup_fmap_2_strong resolve); [|apply NoDup_filter, Object_keys_NoDup].
      intros k1 k2 [_ H1]%list_elem_of_filter [_ H2]%list_elem_of_filter Heq.
      apply list_elem_of_lookup in H1 as [i1 H1].
      apply list_elem_of_lookup in H2 as [i2 H2].
      assert (i1 = i2) as ->; [|congruence].
      eapply NoDup_lookup; [exact Hkeys| |].
      * by rewrite list_lookup_fmap, H1.
      * rewrite list_lookup_fmap, H2. cbn. by rewrite Heq.
    + intros x (k & -> & [Hreq _]%list_elem_of_filter)%list_elem_of_fmap. exact Hreq.
Qed.

Lemma clearPluginModuleCache_count_bound_witness :
  exists cleared w',
    clearPluginModuleCache ["/ws/a.js"; "a.js"; "/ws/none.js"] Sample.cachedWorld
    = (Returned cleared, w')
    /\ cleared <= 3.
Proof.
  eexists _, _. split; [vm_compute; reflexivity|].
  destruct (clearPluginModuleCache_count_bound
              ["/ws/a.js"; "a.js"; "/ws/none.js"] Sample.cachedWorld _ _
              ltac:(vm_compute; reflexivity)) as [Hsize Hsources].
  - apply Hsources. compute_done.
Defined.

Lemma purgeModuleCache_ext (resolve1 resolve2 : string -> string)
    (sources : list string) (cache : gmap string Module) :
  (forall p, p ∈ sources -> resolve1 p = resolve2 p) ->
  (forall k, k ∈ Object_keys cache -> resolve1 k = resolve2 k) ->
  purgeModuleCache resolve1 sources cache = purgeModuleCache resolve2 sources cache.
Proof.
  intros Hsources Hkeys. unfold purgeModuleCache.
  assert (map (normalizeSource resolve1) sources = map (normalizeSource resolve2) sources)
    as ->.
  { apply map_ext_in. intros p Hp%list_elem_of_In. by apply Hsources. }
  generalize (cache, 0). revert Hkeys. generalize (Object_keys cache) as keys.
  induction keys as [|k keys IH]; intros Hkeys st; [reflexivity|].
  cbn [fold_left]. rewrite IH by (intros k' Hk'; apply Hkeys; by right).
  unfold purgeStep, normalizeSource. rewrite (Hkeys k) by left. reflexivity.
Qed.

(** X16. When the sources passed and the keys of the import cache are
    absolute paths, the working directory of the process has no part in
    [clearPluginModuleCache]: started from two directories on the same cache,
    it returns the same number and leaves the same cache. *)
Theorem clearPluginModuleCache_absolute_paths (sources : list string) (w1 w2 : World) :
  requireCache (env w1) = requireCache (env w2) ->
  (forall p, p ∈ sources -> Path.isAbsolute p = true) ->
  (forall k, is_Some (requireCache (env w1) !! k) -> Path.isAbsolute k = true) ->
  (clearPluginModuleCache sources w1).1 = (clearPluginModuleCache sources w2).1
  /\ requireCache (env (clearPluginModuleCache sources w1).2)
     = requireCache (env (clearPluginModuleCache sources w2).2).
Proof.
  intros Hcache Hsources Hkeys. unfold clearPluginModuleCache. cbn. rewrite <- Hcache.
  rewrite (purgeModuleCache_ext (Path.resolve (cwd (env w1))) (Path.resolve (cwd (env w2)))).
  - by split.
  - intros p Hp. unfold Path.resolve. by rewrite (Hsources p Hp).
  - intros k Hk%elem_of_Object_keys. unfold Path.resolve. by rewrite (Hkeys k Hk).
Qed.

Lemma clearPluginModuleCache_absolute_paths_witness :
  (clearPluginModuleCache ["/ws/a.js"; "/ws/lib/../c.js"] Sample.cachedWorld).1
  = (clearPluginModuleCache ["/ws/a.js"; "/ws/lib/../c.js"] MoreSamples.elsewhereWorld).1.
Proof.
  destruct (clearPluginModuleCache_absolute_paths
              ["/ws/a.js"; "/ws/lib/../c.js"] Sample.cachedWorld MoreSamples.elsewhereWorld)
    as [Hcleared _]; [| | |exact Hcleared].
  - vm_compute. reflexivity.
  - intros p Hp%list_elem_of_In. destruct Hp as [<-|[<-|[]]]; reflexivity.
  - assert (Forall (fun k => Path.isAbsolute k = true)
              (Object_keys (requireCache (env Sample.cachedWorld)))) as Hkeys
      by compute_done.
    intros k Hk%elem_of_Object_keys. by apply (proj1 (Forall_forall _ _) Hkeys).
Defined.

(** * Properties of [resolveMessageId] *)

Lemma trimEnd_idempotent (s : string) :
  IMessage.trimEnd (IMessage.trimEnd s) = IMessage.trimEnd s.
Proof.
  induction s as [|c rest IH]; [reflexivity|].
  cbn [IMessage.trimEnd]. destruct (IMessage.trimEnd rest) as [|c' kept] eqn:Hrest.
  - destruct (IMessage.isSpace c) eqn:Hc; [reflexivity|].
    cbn [IMessage.trimEnd]. by rewrite Hc.
  - change (IMessage.trimEnd (String c (String c' kept)))
      with (match IMessage.trimEnd (String c' kept) with
            | EmptyString =>
                if IMessage.isSpace c then EmptyString else String c EmptyString
            | kept' => String c kept'
            end).
    by rewrite IH.
Qed.

Lemma trimStart_head (s : string) (c : ascii) (rest : string) :
  IMessage.trimStart s = String c rest -> IMessage.isSpace c = false.
Proof.
  induction s as [|c' rest' IH]; [discriminate|].
  cbn [IMessage.trimStart]. destruct (IMessage.isSpace c') eqn:Hc'; [exact IH|].
  by intros [= <- _].
Qed.

Lemma trimAscii_idempotent (s : string) :
  IMessage.trimAscii (IMessage.trimAscii s) = IMessage.trimAscii s.
Proof.
  unfold IMessage.trimAscii.
  destruct (IMessage.trimStart s) as [|c rest] eqn:Hstart; [reflexivity|].
  apply trimStart_head in Hstart.
  assert (IMessage.trimStart (IMessage.trimEnd (String c rest))
          = IMessage.trimEnd (String c rest)) as ->; [|apply trimEnd_idempotent].
  cbn [IMessage.trimEnd]. rewrite Hstart.
  destruct (IMessage.trimEnd rest); cbn [IMessage.trimStart]; by rewrite Hstart.
Qed.

(** X17. [resolveMessageId] returns the first identifier the reply offers, in
    the order [messageId], [message_id], [id], [guid] for strings that are not
    blank and then [message_id], [id] for numbers, trimmed once more; it
    returns [null] when the reply is [null] or [undefined] or offers
    nothing.  A numeric [messageId] or [guid] is never used. *)
Theorem resolveMessageId_first_offer (trim : string -> string)
    (result : option IMessage.RpcResult) :
  IMessage.resolveMessageId trim result
  = result ≫= fun reply => trim <$> head (omap id (IMessage.offers trim reply)).
Proof.
  destruct result as [[f1 f2 f3 f4]|]; [|reflexivity].
  unfold IMessage.resolveMessageId, IMessage.offers, IMessage.or. cbn.
  destruct f1, f2, f3, f4; cbn;
    repeat (case_match; simplify_eq/=); try reflexivity; try congruence.
Qed.

(** X18. Whatever [resolveMessageId] returns is the trimmed form of a string
    that is not empty: the trimmed form of one of the four string properties,
    or the string form of a numeric [message_id] or [id]. *)
Theorem resolveMessageId_origin (trim : string -> string)
    (result : option IMessage.RpcResult) (ident : string) :
  IMessage.resolveMessageId trim result = Some ident ->
  exists reply raw,
    result = Some reply /\ raw <> "" /\ ident = trim raw
    /\ ((exists s,
           IMessage.FString s ∈ [ IMessage.field_messageId reply;
                                   IMessage.field_message_id reply;
                                   IMessage.field_id reply;
                                   IMessage.field_guid reply ]
           /\ raw = trim s)
        \/ IMessage.FNumber raw ∈ [ IMessage.field_message_id reply;
                                     IMessage.field_id reply ]).
Proof.
  destruct result as [[f1 f2 f3 f4]|]; [|discriminate].
  intros Hrun. exists (IMessage.Build_RpcResult f1 f2 f3 f4). revert Hrun.
  unfold IMessage.resolveMessageId, IMessage.or. cbn.
  destruct f1, f2, f3, f4; cbn;
    repeat match goal with
           | |- context [String.eqb ?a ""] => destruct (String.eqb a "") eqn:?; cbn
           end;
    intros [= <-];
    match goal with
    | |- exists raw, _ /\ _ /\ trim ?x = _ /\ _ => exists x
    end;
    (split; [reflexivity|]); (split; [by apply String.eqb_neq|]); (split; [reflexivity|]);
    first [ left; eexists; (split; [|reflexivity]);
            repeat first [ by constructor 1 | constructor 2 ]
          | right; repeat first [ by constructor 1 | constructor 2 ] ].
Qed.

Lemma resolveMessageId_origin_witness :
  IMessage.resolveMessageId IMessage.trimAscii (Some IMessage.sampleReply)
  = Some "p:0/ABC-1"
  /\ exists raw, raw <> "" /\ "p:0/ABC-1" = IMessage.trimAscii raw.
Proof.
  split; [reflexivity|].
  destruct (resolveMessageId_origin IMessage.trimAscii (Some IMessage.sampleReply)
              "p:0/ABC-1" eq_refl) as (reply & raw & _ & Hraw & Hident & _).
  exists raw. by split.
Defined.

(** X19. With a [trim] that leaves a trimmed string as it is, a [messageId]
    that is a string and not blank is the identifier returned, trimmed,
    whatever the other properties hold. *)
Theorem resolveMessageId_messageId_wins (trim : string -> string)
    (reply : IMessage.RpcResult) (s : string) :
  (forall t, trim (trim t) = trim t) ->
  IMessage.field_messageId reply = IMessage.FString s ->
  trim s <> "" ->
  IMessage.resolveMessageId trim (Some reply) = Some (trim s).
Proof.
  intros Hidem Hfield Hblank. destruct reply as [f1 f2 f3 f4]. cbn in Hfield. subst f1.
  apply String.eqb_neq in Hblank.
  unfold IMessage.resolveMessageId, IMessage.or. cbn.
  repeat (rewrite Hblank; cbn).
  by rewrite Hidem.
Qed.

Lemma resolveMessageId_messageId_wins_witness :
  IMessage.resolveMessageId IMessage.trimAscii
    (Some {| IMessage.field_messageId := IMessage.FString "  msg-7 ";
             IMessage.field_message_id := IMessage.FNumber "12";
             IMessage.field_id := IMessage.FString "other";
             IMessage.field_guid := IMessage.FOther |})
  = Some "msg-7".
Proof.
  apply (resolveMessageId_messageId_wins IMessage.trimAscii _ "  msg-7 ").
  - exact trimAscii_idempotent.
  - reflexivity.
  - discriminate.
Defined.
